(** * scrape: the scraper configuration and the task/results model

    A shallow embedding of [scrape/scrape.go] (package [scrape] of
    dataflowkit): [Results.First], [Results.AllBlocks], [NewTask],
    [Task.StartTime] and [NewScraper], with the run-time panics of Go
    (nil dereference, index out of range, failed type assertion,
    [regexp.MustCompile]) made explicit in the result type. *)

From Stdlib Require Import Ascii String.
From stdpp Require Import gmap strings list fin_maps.

(** ** Go values *)

(** A value of type [interface{}], as [encoding/json] decodes it: the nil
    interface, a bool, a number (kept as its literal), a string, a slice
    or a [map[string]interface{}]. *)
#[warnings="-register-all"]
Inductive any : Type :=
  | AnyNil
  | AnyBool (b : bool)
  | AnyFloat64 (lit : string)
  | AnyString (s : string)
  | AnySlice (l : list any)
  | AnyMap (m : gmap string any).

(** A slice can be nil; [len] and [range] treat nil as empty. *)
Definition slice (A : Type) : Type := option (list A).

Definition elems {A} (s : slice A) : list A := default [] s.

Definition len {A} (s : slice A) : nat := length (elems s).

(** [m[k]] on a [map[string]interface{}]: the zero value (nil interface)
    for a missing key. *)
Definition index_map (m : gmap string any) (k : string) : any :=
  default AnyNil (m !! k).

(** ** Errors and panics *)

(** The [error] values this file creates or passes on.  [ErrNoName i],
    [ErrDuplicateName i] and [ErrNoSelector i] are the three [fmt.Errorf]
    values of the validation loop, [i] the index of the part. *)
Inductive error : Type :=
  | ErrNoParts
  | ErrNoName (i : nat)
  | ErrDuplicateName (i : nat)
  | ErrNoSelector (i : nat)
  | ErrExternal (msg : string).

(** What stops a goroutine without a returned value; [PanicMessage] is a
    panic raised inside a function that is not in this file, by its
    message. *)
Inductive panic : Type :=
  | NilPointerDereference
  | IndexOutOfRange (i n : nat)
  | InterfaceConversion (v : any) (wanted : string)
  | RegexpMustCompile (pattern : string)
  | PanicMessage (msg : string).

(** The outcome of a call: it returns a value, returns an [error], or
    panics. *)
Inductive res (A : Type) : Type :=
  | Ok (a : A)
  | Err (e : error)
  | Panic (p : panic).
Arguments Ok {A} a.
Arguments Err {A} e.
Arguments Panic {A} p.

Definition res_bind {A B} (x : res A) (k : A → res B) : res B :=
  match x with
  | Ok a => k a
  | Err e => Err e
  | Panic p => Panic p
  end.

Notation "'let*' x := c 'in' k" := (res_bind c (fun x => k))
  (at level 10, x pattern, c at level 100, k at level 200).

Definition panics {A} (x : res A) : Prop :=
  match x with Panic _ => True | _ => False end.

(** [*p] on a pointer. *)
Definition deref {A} (p : option A) : res A :=
  match p with
  | Some a => Ok a
  | None => Panic NilPointerDereference
  end.

(** [x.(string)] and [x.(map[string]interface{})], the one-result forms
    that panic on a mismatch. *)
Definition assert_string (x : any) : res string :=
  match x with
  | AnyString s => Ok s
  | _ => Panic (InterfaceConversion x "string")
  end.

Definition assert_map (x : any) : res (gmap string any) :=
  match x with
  | AnyMap m => Ok m
  | _ => Panic (InterfaceConversion x "map[string]interface {}")
  end.

(** ** Results *)

(** One block's record, [map[string]interface{}]; [None] is the nil map. *)
Definition block : Type := option (gmap string any).

Record Results : Type := mkResults {
  Visited : option (gmap string (option error));
  Results_Results : slice (slice block)
}.

(** The zero value of [Results]. *)
Definition Results_zero : Results :=
  {| Visited := None; Results_Results := None |}.

(** [len(r.Visited)]. *)
Definition len_Visited (r : Results) : nat :=
  match Visited r with
  | Some m => size m
  | None => 0
  end.

(** [s[i]] on a slice. *)
Definition index_slice {A} (s : slice A) (i : nat) : res A :=
  match elems s !! i with
  | Some a => Ok a
  | None => Panic (IndexOutOfRange i (len s))
  end.

(** [func (r *Results) First() map[string]interface{}] *)
Definition First (r : Results) : res block :=
  let* page0 := index_slice (Results_Results r) 0 in
  if Nat.eqb (len page0) 0 then Ok None
  else index_slice page0 0.

(** The two nested [range] loops of [AllBlocks], each [append] adding one
    block at the end of [ret]. *)
Definition AllBlocks_page (ret : list block) (page : slice block) : list block :=
  fold_left (fun ret block => ret ++ [block]) (elems page) ret.

Definition AllBlocks_pages (ret : list block) (pages : slice (slice block)) : list block :=
  fold_left AllBlocks_page (elems pages) ret.

(** [func (r *Results) AllBlocks() []map[string]interface{}] *)
Definition AllBlocks (r : Results) : slice block :=
  Some (AllBlocks_pages [] (Results_Results r)).

(** ** Package [extract] *)

(** Modelled from the spec: the struct declarations of package [extract]
    are in another package of the repository; each record keeps the
    fields that [scrape.go] names ([Attr.Attr], [Regex.Regex],
    [Link.Text], [Link.Href], [Image.Src], [Image.Alt]).  A compiled
    [*regexp.Regexp] is kept as the pattern it was compiled from. *)
Record Text : Type := mkText { }.

Record Attr : Type := mkAttr { Attr_Attr : string }.

Record Regex : Type := mkRegex { Regex_Regex : option string }.

Record Link : Type := mkLink { Link_Text : Text; Link_Href : Attr }.

Record Image : Type := mkImage { Image_Src : Attr; Image_Alt : Attr }.

(** The values of the interface [extract.Extractor] that [NewScraper]
    builds; the nil interface is [None] of [option Extractor]. *)
Inductive Extractor : Type :=
  | ExtConst
  | ExtCount
  | ExtText (t : Text)
  | ExtHtml
  | ExtOuterHtml
  | ExtAttr (a : Attr)
  | ExtRegex (r : Regex).

(** ** Scraper, Part, options *)

(** The values of the interface [paginate.Paginator] that [NewScraper]
    installs: [&dummyPaginator{}] or [paginate.BySelector(sel, attr)]. *)
Inductive Paginator : Type :=
  | dummyPaginator
  | BySelector (sel attr : string).

(** The values of [DividePageFunc] that [NewScraper] installs, by the
    constructor that made the closure. *)
Inductive DividePageFunc : Type :=
  | DividePageBySelector (sel : string)
  | DividePageByIntersection (selectors : list string).

Record ScrapeOptions : Type := mkScrapeOptions {
  MaxPages : Z;
  Opts_Format : string;
  Opts_PaginateResults : bool;
  Opts_FetchDelay : option Z;
  Opts_RandomizeFetchDelay : bool;
  Opts_RetryTimes : Z
}.

#[warnings="-register-all"]
Inductive Scraper : Type := mkScraper {
  Scraper_Paginator : Paginator;
  DividePage : DividePageFunc;
  Parts : list Part;
  Opts : ScrapeOptions
}
with Part : Type := mkPart {
  Name : string;
  Selector : string;
  Part_Extractor : option Extractor;
  Details : option Scraper
}.

(** ** Payload *)

(** Modelled from the spec: [Payload], [Field] and the paginator
    description are declared in another file of the package; the records
    keep the fields [NewScraper] reads, with the types it uses them at
    (a pointer is an [option], [Params] is an [interface{}]). *)
Record FieldExtractor : Type := mkFieldExtractor {
  Type_ : string;
  Params : any
}.

Record Field : Type := mkField {
  Field_Name : string;
  Field_Selector : string;
  Field_Extractor : FieldExtractor
}.

Record paginator : Type := mkPaginator {
  paginator_Selector : string;
  paginator_Attribute : string;
  paginator_MaxPages : Z
}.

Record Payload : Type := mkPayload {
  Fields : list Field;
  Payload_Paginator : option paginator;
  Format : string;
  PaginateResults : option bool;
  FetchDelay : option Z;
  RandomizeFetchDelay : option bool;
  RetryTimes : Z
}.

(** ** What [NewScraper] calls from outside this file *)

(** [regexp_compiles pat] says whether [regexp.Compile(pat)] succeeds
    (so that [regexp.MustCompile(pat)] does not panic).

    Modelled from the spec: [FillStruct] is declared in another file of
    the package.  Applying [Params] is best-effort: a failure is an
    [error] that [NewScraper] logs and otherwise ignores.  It is taken
    here, at each type it is called at, as a function that returns the
    updated struct and the optional [error].  For a type that is none of
    the nine the call is [FillStruct(params, nil)], on the nil
    interface: there is no struct to update, and [FillStruct_nil] says
    whether the call returns ([None], with or without an [error]) or
    panics. *)
Class Imports : Type := {
  regexp_compiles : string → bool;
  FillStruct_Link : gmap string any → Link → Link * option error;
  FillStruct_Image : gmap string any → Image → Image * option error;
  FillStruct_Extractor : gmap string any → Extractor → Extractor * option error;
  FillStruct_nil : gmap string any → option panic
}.

Section NewScraper.
Context `{Imports}.

(** [params], a [map[string]interface{}] that is never nil here: the
    fresh map of [make], or the map asserted out of [f.Extractor.Params]. *)
Definition NewScraper_params (f : Field) : res (option (gmap string any)) :=
  match Params (Field_Extractor f) with
  | AnyNil => Ok (Some ∅)
  | x => let* m := assert_map x in Ok (Some m)
  end.

(** [if params != nil { err := FillStruct(params, s); ... }]: the
    [error] is only passed to [logger.Println], which writes a line and
    changes nothing that [NewScraper] returns. *)
Definition fill {T} (FillStruct : gmap string any → T → T * option error)
    (params : option (gmap string any)) (s : T) : T :=
  match params with
  | Some m => fst (FillStruct m s)
  | None => s
  end.

(** [params["regexp"]]; indexing a nil map gives the zero value too. *)
Definition index_params (params : option (gmap string any)) (k : string) : any :=
  match params with
  | Some m => index_map m k
  | None => AnyNil
  end.

(** [if params != nil { err := FillStruct(params, e); ... }] of the
    default case, on the interface [e]: a struct behind [e] is updated;
    on the nil interface the call returns, leaving [e] nil, or panics. *)
Definition fill_e (params : option (gmap string any)) (e : option Extractor)
    : res (option Extractor) :=
  match e with
  | Some e => Ok (Some (fill FillStruct_Extractor params e))
  | None =>
      match params with
      | Some m =>
          match FillStruct_nil m with
          | Some x => Panic x
          | None => Ok None
          end
      | None => Ok None
      end
  end.

(** The inner [switch eType] of the default case: the extractor [e],
    nil for a type that is none of the seven. *)
Definition NewScraper_extractor (eType : string)
    (params : option (gmap string any)) : res (option Extractor) :=
  if String.eqb eType "const" then Ok (Some ExtConst)
  else if String.eqb eType "count" then Ok (Some ExtCount)
  else if String.eqb eType "text" then Ok (Some (ExtText mkText))
  else if String.eqb eType "html" then Ok (Some ExtHtml)
  else if String.eqb eType "outerHtml" then Ok (Some ExtOuterHtml)
  else if String.eqb eType "attr" then Ok (Some (ExtAttr (mkAttr "")))
  else if String.eqb eType "regex" then
    let regExp := index_params params "regexp" in
    let* pat := assert_string regExp in
    if regexp_compiles pat then Ok (Some (ExtRegex (mkRegex (Some pat))))
    else Panic (RegexpMustCompile pat)
  else Ok None.

(** The Parts and the selector that one field adds: the body of the loop
    over [p.Fields], without the two [append]s. *)
Definition NewScraper_field (f : Field) : res (list Part * list string) :=
  let* params := NewScraper_params f in
  let eType := Type_ (Field_Extractor f) in
  if String.eqb eType "link" then
    let l := fill FillStruct_Link params (mkLink mkText (mkAttr "href")) in
    Ok ([ mkPart (Field_Name f +:+ "_text") (Field_Selector f)
            (Some (ExtText (Link_Text l))) None;
          mkPart (Field_Name f +:+ "_link") (Field_Selector f)
            (Some (ExtAttr (Link_Href l))) None ],
        [Field_Selector f])
  else if String.eqb eType "image" then
    let i := fill FillStruct_Image params (mkImage (mkAttr "src") (mkAttr "alt")) in
    Ok ([ mkPart (Field_Name f +:+ "_src") (Field_Selector f)
            (Some (ExtAttr (Image_Src i))) None;
          mkPart (Field_Name f +:+ "_alt") (Field_Selector f)
            (Some (ExtAttr (Image_Alt i))) None ],
        [Field_Selector f])
  else
    let* e := NewScraper_extractor eType params in
    let* e := fill_e params e in
    Ok ([ mkPart (Field_Name f) (Field_Selector f) e None ],
        [Field_Selector f]).

(** [for _, f := range p.Fields { ... }], on the two accumulators. *)
Fixpoint NewScraper_fields (fields : list Field)
    (parts : list Part) (selectors : list string)
    : res (list Part * list string) :=
  match fields with
  | [] => Ok (parts, selectors)
  | f :: fields =>
      let* r := NewScraper_field f in
      NewScraper_fields fields (parts ++ r.1) (selectors ++ r.2)
  end.

(** [for i, part := range parts { ... }] of the validation, from index
    [i] with the names [seenNames] seen so far; [None] when the loop runs
    to its end. *)
Fixpoint NewScraper_validate (i : nat) (seenNames : gset string)
    (parts : list Part) : option error :=
  match parts with
  | [] => None
  | part :: parts =>
      if Nat.eqb (String.length (Name part)) 0 then Some (ErrNoName i)
      else if decide (Name part ∈ seenNames) then Some (ErrDuplicateName i)
      else
        let seenNames := {[Name part]} ∪ seenNames in
        if Nat.eqb (String.length (Selector part)) 0 then Some (ErrNoSelector i)
        else NewScraper_validate (S i) seenNames parts
  end.

Definition NewScraper_paginator (p : Payload) : Paginator :=
  match Payload_Paginator p with
  | None => dummyPaginator
  | Some pg => BySelector (paginator_Selector pg) (paginator_Attribute pg)
  end.

Definition NewScraper_dividePageFunc (selectors : list string) : DividePageFunc :=
  if Nat.eqb (length selectors) 0 then DividePageBySelector "body"
  else DividePageByIntersection selectors.

(** The composite literal [ScrapeOptions{...}]: [p.Paginator.MaxPages],
    [*p.PaginateResults] and [*p.RandomizeFetchDelay] each dereference a
    pointer of the payload. *)
Definition NewScraper_opts (p : Payload) : res ScrapeOptions :=
  let* pg := deref (Payload_Paginator p) in
  let* paginateResults := deref (PaginateResults p) in
  let* randomizeFetchDelay := deref (RandomizeFetchDelay p) in
  Ok (mkScrapeOptions (paginator_MaxPages pg) (Format p) paginateResults
        (FetchDelay p) randomizeFetchDelay (RetryTimes p)).

(** [func NewScraper(p Payload)], returning a [*Scraper] and an [error]. *)
Definition NewScraper (p : Payload) : res Scraper :=
  let* r := NewScraper_fields (Fields p) [] [] in
  let parts := r.1 in
  let selectors := r.2 in
  if Nat.eqb (length parts) 0 then Err ErrNoParts
  else
    match NewScraper_validate 0 ∅ parts with
    | Some e => Err e
    | None =>
        let paginator := NewScraper_paginator p in
        let dividePageFunc := NewScraper_dividePageFunc selectors in
        let* opts := NewScraper_opts p in
        Ok (mkScraper paginator dividePageFunc parts opts)
    end.

End NewScraper.

(** [func (s Scraper) PartNames() []string]: [names] starts as the empty
    slice, not nil, and each Part appends its name. *)
Definition PartNames (s : Scraper) : slice string :=
  Some (fold_left (λ names part, names ++ [Name part]) (Parts s) []).

(** ** Task *)

(** The libraries behind [Task]: [github.com/segmentio/ksuid] (the type
    [KSUID], its methods [String] and [Time], and [Parse], which returns
    a KSUID or an [error]), the type [time.Time] and the type
    [robotstxt.RobotsData].  The
    KSUID that [ksuid.New()] draws from the clock and the random source
    is an argument of [NewTask]. *)
Class Libraries : Type := {
  KSUID : Type;
  time_Time : Type;
  ksuid_String : KSUID → string;
  ksuid_Parse : string → error + KSUID;
  ksuid_Time : KSUID → time_Time;
  RobotsData : Type
}.

Section Task.
Context `{Imports} `{Libraries}.

Record Session : Type := mkSession {
  Robots : option RobotsData;
  Cookies : string
}.

Definition Session_zero : Session := mkSession None "".

Record Task : Type := mkTask {
  ID : string;
  Task_Scraper : option Scraper;
  Task_Session : Session;
  Status : string;
  Task_Results : Results
}.

(** [func NewTask(p Payload) (task *Task, err error)]: the fields that
    the literal [&Task{ID: ..., Scraper: ...}] leaves out keep their zero
    value. *)
Definition NewTask (p : Payload) (id : KSUID) : res Task :=
  let* scraper := NewScraper p in
  Ok (mkTask (ksuid_String id) (Some scraper) Session_zero "" Results_zero).

(** [func (t Task) StartTime()], returning a [*time.Time] and an [error]. *)
Definition StartTime (t : Task) : res time_Time :=
  match ksuid_Parse (ID t) with
  | inl err => Err err
  | inr id => Ok (ksuid_Time id)
  end.

End Task.

(** ** Instances to run the code on *)

Module Run.

(** [regexp.Compile] on the patterns used below: ["("] is rejected
    (missing closing parenthesis), the others compile. *)
Definition compiles (pat : string) : bool := negb (String.eqb pat "(").

(** A [FillStruct] that finds no field to set: the struct is unchanged
    and no [error] is returned. *)
Definition no_fill {T} (_ : gmap string any) (s : T) : T * option error :=
  (s, None).

(** [FillStruct] on the nil interface: without a key there is nothing to
    set and the call returns; with a key there is no struct to set it
    in, and the call panics. *)
Definition fill_nil (m : gmap string any) : option panic :=
  if Nat.eqb (size m) 0 then None
  else Some (PanicMessage "reflect: call of reflect.Value.Elem on zero Value").

#[export] Instance imports : Imports := {|
  regexp_compiles := compiles;
  FillStruct_Link := no_fill;
  FillStruct_Image := no_fill;
  FillStruct_Extractor := no_fill;
  FillStruct_nil := fill_nil
|}.

(** Base 62 over [0-9A-Za-z], most significant digit first. *)
Definition base62_char (d : N) : Ascii.ascii :=
  if (d <? 10)%N then ascii_of_N (48 + d)
  else if (d <? 36)%N then ascii_of_N (65 + (d - 10))
  else ascii_of_N (97 + (d - 36)).

Definition base62_value (c : Ascii.ascii) : option N :=
  let n := N_of_ascii c in
  if ((48 <=? n) && (n <=? 57))%N then Some (n - 48)%N
  else if ((65 <=? n) && (n <=? 90))%N then Some (n - 65 + 10)%N
  else if ((97 <=? n) && (n <=? 122))%N then Some (n - 97 + 36)%N
  else None.

Fixpoint base62_encode (digits : nat) (v : N) (acc : string) : string :=
  match digits with
  | O => acc
  | S digits => base62_encode digits (v / 62)%N (String (base62_char (v mod 62)%N) acc)
  end.

Fixpoint base62_decode (s : string) (acc : N) : option N :=
  match s with
  | EmptyString => Some acc
  | String c s =>
      match base62_value c with
      | Some d => base62_decode s (acc * 62 + d)%N
      | None => None
      end
  end.

(** A KSUID as the number its 20 bytes spell, a 4-byte timestamp in
    seconds since 1400000000 before a 16-byte payload; its text is 27
    digits in base 62; a time is in seconds since the Unix epoch. *)
Definition parse (s : string) : error + N :=
  if negb (Nat.eqb (String.length s) 27) then
    inl (ErrExternal "Valid encoded KSUIDs are 27 characters")
  else
    match base62_decode s 0 with
    | Some v =>
        if (v <? 2 ^ 160)%N then inr v
        else inl (ErrExternal "Valid encoded KSUIDs are bounded by aWgEPTl1tmebfsQzFP4bxwgy80V")
    | None =>
        inl (ErrExternal "Valid encoded KSUIDs are bounded by aWgEPTl1tmebfsQzFP4bxwgy80V")
    end.

#[export] Instance libraries : Libraries := {|
  KSUID := N;
  time_Time := Z;
  ksuid_String := fun k => base62_encode 27 k "";
  ksuid_Parse := parse;
  ksuid_Time := fun k => (Z.of_N (k / 2 ^ 128) + 1400000000)%Z;
  RobotsData := unit
|}.

(** The KSUID of the library's README, 0ujtsYcgvSTl8PAuAdqWYSMnLOv:
    timestamp 107608047, payload B5A1CD34B5F99D1154FB6853345C9735. *)
Definition ksuid_readme : @KSUID libraries :=
  (107608047 * 2 ^ 128 + 0xB5A1CD34B5F99D1154FB6853345C9735)%N.

Definition text_field (name selector : string) : Field :=
  mkField name selector (mkFieldExtractor "text" AnyNil).

Definition regex_field (name selector pat : string) : Field :=
  mkField name selector
    (mkFieldExtractor "regex" (AnyMap {[ "regexp" := AnyString pat ]})).

Definition next_link : paginator := mkPaginator ".next" "href" 0.

(** One text field, every optional part of the payload present. *)
Definition payload_title : Payload :=
  mkPayload [text_field "title" ".title"] (Some next_link) "json"
    (Some false) None (Some false) 0.

(** The same field, no paginator description. *)
Definition payload_no_paginator : Payload :=
  mkPayload [text_field "title" ".title"] None "json"
    (Some false) None (Some false) 0.

(** The same field and a paginator, [PaginateResults] left out. *)
Definition payload_no_paginateResults : Payload :=
  mkPayload [text_field "title" ".title"] (Some next_link) "json"
    None None (Some false) 0.

(** No field at all, and neither [PaginateResults] nor
    [RandomizeFetchDelay]. *)
Definition payload_empty : Payload :=
  mkPayload [] (Some next_link) "json" None None None 0.

(** A regex field whose pattern does not compile. *)
Definition payload_bad_regex : Payload :=
  mkPayload [text_field "title" ".title"; regex_field "price" ".price" "("]
    (Some next_link) "json" (Some false) None (Some false) 0.

(** Two fields of one name, the first without a selector. *)
Definition payload_two_defects : Payload :=
  mkPayload [text_field "title" ""; text_field "title" ".title"]
    (Some next_link) "json" (Some false) None (Some false) 0.

(** A link field whose [Params] try to override the attribute. *)
Definition field_more : Field :=
  mkField "more" "a.more"
    (mkFieldExtractor "link" (AnyMap {[ "attr" := AnyString "data-href" ]})).

Definition payload_link : Payload :=
  mkPayload [text_field "title" ".title"; field_more] (Some next_link) "json"
    (Some true) None (Some false) 3.

(** What [NewScraper] builds for [payload_link]. *)
Definition scraper_link : Scraper :=
  mkScraper (BySelector ".next" "href")
    (DividePageByIntersection [".title"; "a.more"])
    [ mkPart "title" ".title" (Some (ExtText mkText)) None;
      mkPart "more_text" "a.more" (Some (ExtText mkText)) None;
      mkPart "more_link" "a.more" (Some (ExtAttr (mkAttr "href"))) None ]
    (mkScrapeOptions 0 "json" true None false 3).

(** What [NewScraper] and [NewTask] build for [payload_title]. *)
Definition part_title : Part :=
  mkPart "title" ".title" (Some (ExtText mkText)) None.

Definition scraper_title : Scraper :=
  mkScraper (BySelector ".next" "href") (DividePageByIntersection [".title"])
    [part_title] (mkScrapeOptions 0 "json" false None false 0).

Definition task_readme : @Task libraries :=
  mkTask "0ujtsYcgvSTl8PAuAdqWYSMnLOv" (Some scraper_title) Session_zero ""
    Results_zero.

(** Two pages, of two blocks and of none. *)
Definition block_of (title : string) : block :=
  Some {[ "title" := AnyString title ]}.

Definition results_two_pages : Results :=
  mkResults (Some {[ "http://example.com/" := None ]})
    (Some [Some [block_of "A"; block_of "B"]; Some []]).

(** A first page without a block before a page with one. *)
Definition results_empty_first : Results :=
  mkResults (Some {[ "http://example.com/" := None ]})
    (Some [Some []; Some [block_of "C"]]).

(** An image field, a field of a type that is none of the nine, a link
    field without a name. *)
Definition field_pic : Field :=
  mkField "pic" "img.pic" (mkFieldExtractor "image" AnyNil).

Definition field_number : Field :=
  mkField "price" ".price" (mkFieldExtractor "number" AnyNil).

Definition field_noname : Field :=
  mkField "" "a.more" (mkFieldExtractor "link" AnyNil).

Definition payload_noname : Payload :=
  mkPayload [field_noname] (Some next_link) "json" (Some false) None (Some false) 0.

(** A link field and a text field named as the link's text Part. *)
Definition payload_collision : Payload :=
  mkPayload [field_more; text_field "more_text" ".more"] (Some next_link) "json"
    (Some false) None (Some false) 0.

(** A link field whose [Params] are a string, alone in a payload. *)
Definition field_link_string : Field :=
  mkField "more" "a.more" (mkFieldExtractor "link" (AnyString "data-href")).

Definition payload_link_string : Payload :=
  mkPayload [field_link_string] (Some next_link) "json"
    (Some false) None (Some false) 0.

(** A field of a type that is none of the nine, with a key in [Params],
    after a text field. *)
Definition field_number_round : Field :=
  mkField "price" ".price"
    (mkFieldExtractor "number" (AnyMap {[ "round" := AnyString "2" ]})).

Definition payload_number : Payload :=
  mkPayload [field_number] (Some next_link) "json" (Some false) None (Some false) 0.

Definition payload_number_round : Payload :=
  mkPayload [text_field "title" ".title"; field_number_round] (Some next_link)
    "json" (Some false) None (Some false) 0.

(** A regex field without [Params], and a text field whose [Params] are a
    string. *)
Definition field_regex_bare : Field :=
  mkField "price" ".price" (mkFieldExtractor "regex" AnyNil).

Definition field_params_string : Field :=
  mkField "title" ".title" (mkFieldExtractor "text" (AnyString "trim")).

End Run.

(** ** What the properties are stated with *)

(** Parts without a defect: no two of one name, none with an empty name
    or an empty selector. *)
Definition parts_ok (parts : list Part) : Prop :=
  NoDup (Name <$> parts)
  ∧ Forall (λ part, Name part ≠ "" ∧ Selector part ≠ "") parts.

(** The configuration that the validation accepts: at least one Part,
    and no defect. *)
Definition valid_parts (parts : list Part) : Prop :=
  parts ≠ [] ∧ parts_ok parts.

(** What an [error] of the validation says about the Parts: there are
    none, or the Part at index [i] is the first with a defect, and the
    defect is the first of the three that it has (an empty name, a name
    that an earlier Part has, an empty selector). *)
Definition error_describes (parts : list Part) (e : error) : Prop :=
  match e with
  | ErrNoParts => parts = []
  | ErrNoName i =>
      ∃ part, parts !! i = Some part ∧ parts_ok (take i parts)
              ∧ Name part = ""
  | ErrDuplicateName i =>
      ∃ part, parts !! i = Some part ∧ parts_ok (take i parts)
              ∧ Name part ≠ "" ∧ Name part ∈ (Name <$> take i parts)
  | ErrNoSelector i =>
      ∃ part, parts !! i = Some part ∧ parts_ok (take i parts)
              ∧ Name part ≠ "" ∧ (Name part ∉ (Name <$> take i parts))
              ∧ Selector part = ""
  | ErrExternal _ => False
  end.

(** [Params] as the payload format has it: left out, or an object. *)
Definition params_is_map (f : Field) : Prop :=
  match Params (Field_Extractor f) with
  | AnyNil | AnyMap _ => True
  | _ => False
  end.

(** The map [params] of a field whose [Params] are left out (the empty
    map of [make]) or an object. *)
Definition params_map (f : Field) : gmap string any :=
  match Params (Field_Extractor f) with
  | AnyMap m => m
  | _ => ∅
  end.

(** The [Link] that [FillStruct] leaves, under the field's [Params], of
    the default whose [Href] reads the attribute "href". *)
Definition link_filled `{Imports} (f : Field) : Link :=
  (FillStruct_Link (params_map f) (mkLink mkText (mkAttr "href"))).1.

(** The two Parts of a link field, around the two extractors. *)
Definition link_parts (f : Field) (text : Text) (href : Attr) : list Part :=
  [ mkPart (Field_Name f +:+ "_text") (Field_Selector f) (Some (ExtText text)) None;
    mkPart (Field_Name f +:+ "_link") (Field_Selector f) (Some (ExtAttr href)) None ].

(** The string at [Params["regexp"]], when [Params] is a map that holds
    a string there. *)
Definition regexp_param (f : Field) : option string :=
  match Params (Field_Extractor f) with
  | AnyMap m =>
      match m !! "regexp" with
      | Some (AnyString pat) => Some pat
      | _ => None
      end
  | _ => None
  end.

(** Whether [Params["regexp"]] is a pattern that compiles. *)
Definition regexp_param_compiles `{Imports} (f : Field) : bool :=
  match regexp_param f with
  | Some pat => regexp_compiles pat
  | None => false
  end.

(** The payload with its two flag pointers replaced. *)
Definition with_flags (p : Payload) (paginateResults randomizeFetchDelay : option bool)
    : Payload :=
  mkPayload (Fields p) (Payload_Paginator p) (Format p) paginateResults
    (FetchDelay p) randomizeFetchDelay (RetryTimes p).

(** The names of the Parts that a field adds: two for a link or an
    image field, the field's name otherwise. *)
Definition field_names (f : Field) : list string :=
  if String.eqb (Type_ (Field_Extractor f)) "link" then
    [Field_Name f +:+ "_text"; Field_Name f +:+ "_link"]
  else if String.eqb (Type_ (Field_Extractor f)) "image" then
    [Field_Name f +:+ "_src"; Field_Name f +:+ "_alt"]
  else [Field_Name f].

(** The two Parts of an image field, around the two extractors. *)
Definition image_parts (f : Field) (src alt : Attr) : list Part :=
  [ mkPart (Field_Name f +:+ "_src") (Field_Selector f) (Some (ExtAttr src)) None;
    mkPart (Field_Name f +:+ "_alt") (Field_Selector f) (Some (ExtAttr alt)) None ].

(** The seven types that the inner [switch] knows. *)
Definition known_type (eType : string) : Prop :=
  eType ∈ ["const"; "count"; "text"; "html"; "outerHtml"; "attr"; "regex"].

(** A field that the loop processes without a panic: [Params] is left
    out or an object; for the type "regex" it holds, at "regexp", a
    string that compiles; and for a type that is none of the nine the
    call [FillStruct(params, nil)] returns. *)
Definition field_ok `{Imports} (f : Field) : Prop :=
  params_is_map f
  ∧ (Type_ (Field_Extractor f) = "regex" → regexp_param_compiles f = true)
  ∧ (Type_ (Field_Extractor f) ≠ "link" → Type_ (Field_Extractor f) ≠ "image" →
     ¬ known_type (Type_ (Field_Extractor f)) →
     FillStruct_nil (params_map f) = None).

(** * Properties *)

(** ** Results *)

Lemma AllBlocks_page_app (ret : list block) (page : slice block) :
  AllBlocks_page ret page = ret ++ elems page.
Proof.
  unfold AllBlocks_page. generalize (elems page) as bs. intros bs.
  revert ret. induction bs as [|b bs IH]; intros ret; simpl.
  - by rewrite app_nil_r.
  - rewrite IH. by rewrite <- app_assoc.
Qed.

Lemma AllBlocks_pages_app (ret : list block) (pages : slice (slice block)) :
  AllBlocks_pages ret pages = ret ++ concat (elems <$> elems pages).
Proof.
  unfold AllBlocks_pages. generalize (elems pages) as ps. intros ps.
  revert ret. induction ps as [|pg ps IH]; intros ret; simpl.
  - by rewrite app_nil_r.
  - rewrite IH, AllBlocks_page_app. by rewrite <- app_assoc.
Qed.

(** C7: [AllBlocks] returns the blocks of all pages, pages in order and
    blocks in order within a page, always as a slice that is not nil; on
    a [Results] of zero pages (a nil or an empty [Results] slice) it is
    the empty slice. *)
Theorem AllBlocks_concat :
  ∀ r : Results,
    AllBlocks r = Some (concat (elems <$> elems (Results_Results r)))
    ∧ ∀ visited,
        AllBlocks (mkResults visited None) = Some []
        ∧ AllBlocks (mkResults visited (Some [])) = Some [].
Proof.
  intros r. split.
  - unfold AllBlocks. by rewrite AllBlocks_pages_app.
  - intros visited. split; reflexivity.
Qed.

Example First_two_pages :
  First Run.results_two_pages = Ok (Run.block_of "A").
Proof. reflexivity. Qed.

Example AllBlocks_two_pages :
  AllBlocks Run.results_two_pages = Some [Run.block_of "A"; Run.block_of "B"].
Proof. reflexivity. Qed.

Example AllBlocks_zero : AllBlocks Results_zero = Some [].
Proof. reflexivity. Qed.

(** With at least one page, [First] is the first block of the first
    page, or nil when that page has no block. *)
Lemma First_first_page (r : Results) (page0 : slice block) (pages : list (slice block)) :
  elems (Results_Results r) = page0 :: pages →
  First r = Ok (default None (head (elems page0))).
Proof.
  intros Hr. unfold First, index_slice. rewrite Hr. simpl.
  unfold len. destruct (elems page0) as [|b bs]; reflexivity.
Qed.

(** C2: on a [Results] of zero pages [First] does not return nil: the
    index expression [r.Results[0]] panics, index out of range. *)
Theorem First_zero_pages :
  ∀ r : Results,
    len (Results_Results r) = 0 →
    First r = Panic (IndexOutOfRange 0 0).
Proof.
  intros r Hlen. unfold First, index_slice. unfold len in *.
  destruct (elems (Results_Results r)) as [|pg pgs] eqn:E; [|discriminate].
  reflexivity.
Qed.

Lemma First_zero_pages_witness :
  len (Results_Results Results_zero) = 0
  ∧ First Results_zero = Panic (IndexOutOfRange 0 0).
Proof.
  split; [reflexivity | apply (First_zero_pages Results_zero); reflexivity].
Defined.

(** ** The loop over the fields *)

Section NewScraper_facts.
Context `{Imports}.

Lemma String_length_0 (s : string) : Nat.eqb (String.length s) 0 = true ↔ s = "".
Proof. destruct s; simpl; split; intros; try done. Qed.

Lemma NewScraper_params_no_error (f : Field) (e : error) :
  NewScraper_params f ≠ Err e.
Proof.
  unfold NewScraper_params. by destruct (Params (Field_Extractor f)).
Qed.

Lemma NewScraper_extractor_no_error eType params (e : error) :
  NewScraper_extractor eType params ≠ Err e.
Proof.
  unfold NewScraper_extractor.
  repeat (match goal with |- context [String.eqb ?a ?b] => destruct (String.eqb a b) end;
          [done|]).
  match goal with |- context [String.eqb ?a ?b] => destruct (String.eqb a b) end; [|done].
  destruct (assert_string _) as [pat| |] eqn:E; simpl; try done.
  - by destruct (regexp_compiles pat).
  - unfold assert_string in E. by destruct (index_params _ _).
Qed.

Lemma fill_e_no_error params (e : option Extractor) (err : error) :
  fill_e params e ≠ Err err.
Proof.
  unfold fill_e. destruct e; [done|]. destruct params as [m|]; [|done].
  by destruct (FillStruct_nil m).
Qed.

(** A field never makes [NewScraper] return an [error]: its step ends
    normally or panics. *)
Lemma NewScraper_field_no_error (f : Field) (e : error) :
  NewScraper_field f ≠ Err e.
Proof.
  unfold NewScraper_field.
  destruct (NewScraper_params f) as [params|e'|] eqn:E; simpl; [| |done].
  - destruct (String.eqb _ "link"); [done|].
    destruct (String.eqb _ "image"); [done|].
    destruct (NewScraper_extractor _ params) as [x|e'|] eqn:E'; simpl; [| |done].
    + destruct (fill_e params x) as [x'|e'|] eqn:E''; simpl; [done| |done].
      by apply fill_e_no_error in E''.
    + by apply NewScraper_extractor_no_error in E'.
  - by apply NewScraper_params_no_error in E.
Qed.

(** Each field that is processed adds one selector, its own, and one or
    two Parts, all on that selector. *)
Lemma NewScraper_field_ok (f : Field) (r : list Part * list string) :
  NewScraper_field f = Ok r →
  r.2 = [Field_Selector f]
  ∧ 1 ≤ length r.1 ≤ 2
  ∧ Forall (λ part, Selector part = Field_Selector f) r.1.
Proof.
  unfold NewScraper_field.
  destruct (NewScraper_params f) as [params| |]; simpl; [|done|done].
  destruct (String.eqb _ "link").
  { intros [= <-]. simpl. repeat split; try lia; repeat constructor. }
  destruct (String.eqb _ "image").
  { intros [= <-]. simpl. repeat split; try lia; repeat constructor. }
  destruct (NewScraper_extractor _ params) as [x| |]; simpl; [|done|done].
  destruct (fill_e params x) as [x'| |]; simpl; [|done|done].
  intros [= <-]. simpl. repeat split; try lia; repeat constructor.
Qed.

(** The accumulators only grow at the end: the loop started on [parts]
    and [selectors] adds what the loop started on empty slices builds. *)
Lemma NewScraper_fields_acc (fields : list Field) (parts : list Part)
    (selectors : list string) :
  NewScraper_fields fields parts selectors =
    let* r := NewScraper_fields fields [] [] in
    Ok (parts ++ r.1, selectors ++ r.2).
Proof.
  revert parts selectors. induction fields as [|f fields IH]; intros parts selectors; simpl.
  - by rewrite !app_nil_r.
  - destruct (NewScraper_field f) as [[ps ss]| |]; simpl; [|done|done].
    rewrite (IH (parts ++ ps) (selectors ++ ss)), (IH ps ss).
    destruct (NewScraper_fields fields [] []) as [[ps' ss']| |]; simpl; [|done|done].
    by rewrite !app_assoc.
Qed.

Lemma NewScraper_fields_app (fields1 fields2 : list Field) :
  NewScraper_fields (fields1 ++ fields2) [] [] =
    let* r1 := NewScraper_fields fields1 [] [] in
    let* r2 := NewScraper_fields fields2 [] [] in
    Ok (r1.1 ++ r2.1, r1.2 ++ r2.2).
Proof.
  induction fields1 as [|f fields1 IH]; simpl.
  - by destruct (NewScraper_fields fields2 [] []) as [[ps ss]| |].
  - destruct (NewScraper_field f) as [[ps ss]| |]; simpl; [|done|done].
    rewrite (NewScraper_fields_acc (fields1 ++ fields2)), IH.
    rewrite (NewScraper_fields_acc fields1 ps ss).
    destruct (NewScraper_fields fields1 [] []) as [[ps1 ss1]| |]; simpl; [|done|done].
    destruct (NewScraper_fields fields2 [] []) as [[ps2 ss2]| |]; simpl; [|done|done].
    by rewrite !app_assoc.
Qed.

Lemma NewScraper_fields_no_error (fields : list Field) parts selectors (e : error) :
  NewScraper_fields fields parts selectors ≠ Err e.
Proof.
  revert parts selectors. induction fields as [|f fields IH]; intros parts selectors; simpl.
  - done.
  - destruct (NewScraper_field f) as [[ps ss]|e'|] eqn:E; simpl; [|
      by apply NewScraper_field_no_error in E | done].
    apply IH.
Qed.

(** When the loop ends normally, the selectors are the fields' selectors
    in order, one a field, and there is at least one Part a field. *)
Lemma NewScraper_fields_ok (fields : list Field) (r : list Part * list string) :
  NewScraper_fields fields [] [] = Ok r →
  r.2 = Field_Selector <$> fields ∧ length fields ≤ length r.1.
Proof.
  revert r. induction fields as [|f fields IH]; intros r; simpl.
  - intros [= <-]. done.
  - destruct (NewScraper_field f) as [[ps ss]| |] eqn:E; simpl; [|done|done].
    rewrite NewScraper_fields_acc.
    destruct (NewScraper_fields fields [] []) as [[ps' ss']| |]; simpl; [|done|done].
    intros [= <-]. simpl.
    destruct (IH _ eq_refl) as [Hss Hlen].
    destruct (NewScraper_field_ok _ _ E) as (Hs & Hps & _).
    simpl in *. subst. split; [done|]. rewrite length_app. lia.
Qed.

(** A field whose step panics makes the whole loop panic. *)
Lemma NewScraper_fields_panics (fields : list Field) (f : Field) parts selectors :
  f ∈ fields → panics (NewScraper_field f) →
  panics (NewScraper_fields fields parts selectors).
Proof.
  intros Hin Hf. revert parts selectors.
  induction fields as [|f' fields IH]; intros parts selectors.
  - by apply elem_of_nil in Hin.
  - simpl. apply elem_of_cons in Hin as [<-|Hin].
    + by destruct (NewScraper_field f).
    + destruct (NewScraper_field f') as [[ps ss]|e|] eqn:E; simpl; [| |done].
      * by apply IH.
      * by apply NewScraper_field_no_error in E.
Qed.

End NewScraper_facts.

(** ** The validation loop *)

Lemma NewScraper_validate_None (parts : list Part) (i : nat) (seenNames : gset string) :
  NewScraper_validate i seenNames parts = None ↔
    parts_ok parts ∧ ∀ part, part ∈ parts → Name part ∉ seenNames.
Proof.
  unfold parts_ok.
  revert i seenNames. induction parts as [|part parts IH]; intros i seenNames; simpl.
  - split; [|done]. intros _. split_and!; [constructor|constructor|].
    intros part Hin. by apply elem_of_nil in Hin.
  - destruct (Nat.eqb (String.length (Name part)) 0) eqn:Hname.
    { apply String_length_0 in Hname. split; [done|].
      intros ((_ & Hall) & _). by inversion Hall as [|? ? [? _]]. }
    assert (Name part ≠ "") as Hname'.
    { intros E. apply String_length_0 in E. congruence. }
    destruct (decide (Name part ∈ seenNames)) as [Hseen|Hseen].
    { split; [done|]. intros (_ & Hnot). destruct (Hnot part); [left|done]. }
    destruct (Nat.eqb (String.length (Selector part)) 0) eqn:Hsel.
    { apply String_length_0 in Hsel. split; [done|].
      intros ((_ & Hall) & _). by inversion Hall as [|? ? [_ ?]]. }
    assert (Selector part ≠ "") as Hsel'.
    { intros E. apply String_length_0 in E. congruence. }
    rewrite IH, NoDup_cons, Forall_cons. split.
    + intros ((Hnd & Hall) & Hnot). split_and!; try done.
      * intros (part' & Heq & Hin)%list_elem_of_fmap.
        apply (Hnot part' Hin). apply elem_of_union. left.
        by apply elem_of_singleton.
      * intros part' [->|Hin]%elem_of_cons; [done|].
        specialize (Hnot part' Hin). intros Hin'. apply Hnot.
        apply elem_of_union. by right.
    + intros (((Hfresh & Hnd) & (_ & Hall)) & Hnot). split_and!; try done.
      intros part' Hin [Heq%elem_of_singleton|Hin']%elem_of_union.
      * apply Hfresh. apply list_elem_of_fmap. by exists part'.
      * apply (Hnot part'); [by right|done].
Qed.

(** An [error] of the loop comes from the first Part, at some offset
    [k], at which one of the three tests fires; the Parts before it pass
    the loop. *)
Lemma NewScraper_validate_Some (parts : list Part) (i : nat) (seenNames : gset string)
    (e : error) :
  NewScraper_validate i seenNames parts = Some e →
  ∃ k part,
    parts !! k = Some part
    ∧ NewScraper_validate i seenNames (take k parts) = None
    ∧ ( (e = ErrNoName (i + k) ∧ Name part = "")
        ∨ (e = ErrDuplicateName (i + k) ∧ Name part ≠ ""
           ∧ (Name part ∈ seenNames ∨ Name part ∈ (Name <$> take k parts)))
        ∨ (e = ErrNoSelector (i + k) ∧ Name part ≠ ""
           ∧ (Name part ∉ seenNames) ∧ (Name part ∉ (Name <$> take k parts))
           ∧ Selector part = "") ).
Proof.
  revert i seenNames. induction parts as [|part parts IH]; intros i seenNames; simpl.
  - done.
  - destruct (Nat.eqb (String.length (Name part)) 0) eqn:Hname.
    { apply String_length_0 in Hname. intros [= <-].
      exists 0, part. rewrite Nat.add_0_r. split_and!; [done|done|]. by left. }
    assert (Name part ≠ "") as Hname'.
    { intros E. apply String_length_0 in E. congruence. }
    destruct (decide (Name part ∈ seenNames)) as [Hseen|Hseen].
    { intros [= <-]. exists 0, part. rewrite Nat.add_0_r.
      split_and!; [done|done|]. right; left. split_and!; [done|done|by left]. }
    destruct (Nat.eqb (String.length (Selector part)) 0) eqn:Hsel.
    { apply String_length_0 in Hsel. intros [= <-].
      exists 0, part. rewrite Nat.add_0_r. split_and!; [done|done|].
      right; right. split_and!; try done. simpl. apply not_elem_of_nil. }
    intros (k & part' & Hk & Hpre & Hcases)%IH.
    exists (S k), part'. split; [done|]. split.
    { simpl. rewrite Hname. destruct (decide (Name part ∈ seenNames)); [done|].
      by rewrite Hsel. }
    replace (i + S k) with (S i + k) by lia. simpl.
    destruct Hcases as [?|[(-> & Hne & Hdup)|(-> & Hne & Hfresh & Hfresh' & Hsel')]];
      [by left| |].
    + right; left. split_and!; [done|done|].
      destruct Hdup as [[Heq%elem_of_singleton|Hin]%elem_of_union|Hin].
      * right. rewrite Heq. left.
      * by left.
      * right. by right.
    + right; right. split_and!; try done.
      * intros Hin. apply Hfresh. apply elem_of_union. by right.
      * intros [Heq|Hin]%elem_of_cons; [|done].
        apply Hfresh. apply elem_of_union. left. by apply elem_of_singleton.
Qed.

Lemma NewScraper_validate_valid (parts : list Part) :
  valid_parts parts ↔ parts ≠ [] ∧ NewScraper_validate 0 ∅ parts = None.
Proof.
  unfold valid_parts. rewrite NewScraper_validate_None. split.
  - intros (Hne & Hok). split_and!; try done.
  - intros (Hne & Hok & _). done.
Qed.

Lemma NewScraper_validate_describes (parts : list Part) (e : error) :
  NewScraper_validate 0 ∅ parts = Some e → error_describes parts e.
Proof.
  intros (k & part & Hk & Hpre & Hcases)%NewScraper_validate_Some.
  apply NewScraper_validate_None in Hpre as [Hpre _]. simpl in Hcases.
  destruct Hcases as [(-> & Hname)|[(-> & Hne & Hdup)|(-> & Hne & _ & Hfresh & Hsel)]];
    simpl.
  - by exists part.
  - destruct Hdup as [Hin|Hin]; [by apply not_elem_of_empty in Hin|].
    by exists part.
  - by exists part.
Qed.

(** ** NewScraper, from the loop's result on *)

Section NewScraper_results.
Context `{Imports}.

Lemma NewScraper_after_fields (p : Payload) (parts : list Part) (selectors : list string) :
  NewScraper_fields (Fields p) [] [] = Ok (parts, selectors) →
  NewScraper p =
    match parts with
    | [] => Err ErrNoParts
    | _ :: _ =>
        match NewScraper_validate 0 ∅ parts with
        | Some e => Err e
        | None =>
            let* opts := NewScraper_opts p in
            Ok (mkScraper (NewScraper_paginator p)
                  (NewScraper_dividePageFunc selectors) parts opts)
        end
    end.
Proof.
  intros Hfields. unfold NewScraper. rewrite Hfields. simpl.
  by destruct parts.
Qed.

Lemma NewScraper_Ok_inv (p : Payload) (s : Scraper) :
  NewScraper p = Ok s →
  ∃ parts selectors opts,
    NewScraper_fields (Fields p) [] [] = Ok (parts, selectors)
    ∧ valid_parts parts
    ∧ NewScraper_opts p = Ok opts
    ∧ s = mkScraper (NewScraper_paginator p)
            (NewScraper_dividePageFunc selectors) parts opts.
Proof.
  intros Hs.
  destruct (NewScraper_fields (Fields p) [] []) as [[parts selectors]|e|x] eqn:Hfields.
  - rewrite (NewScraper_after_fields _ _ _ Hfields) in Hs.
    destruct parts as [|part parts]; [done|].
    destruct (NewScraper_validate 0 ∅ (part :: parts)) eqn:Hv; [done|].
    destruct (NewScraper_opts p) as [opts| |] eqn:Hopts; simpl in Hs; [|done|done].
    exists (part :: parts), selectors, opts. split_and!; try done.
    + by apply NewScraper_validate_valid.
    + by inversion Hs.
  - unfold NewScraper in Hs. by rewrite Hfields in Hs.
  - unfold NewScraper in Hs. by rewrite Hfields in Hs.
Qed.

Lemma NewScraper_opts_Ok (p : Payload) :
  is_Some (Payload_Paginator p) → is_Some (PaginateResults p) →
  is_Some (RandomizeFetchDelay p) →
  ∃ opts, NewScraper_opts p = Ok opts.
Proof.
  intros [pg Hpg] [pr Hpr] [rfd Hrfd]. unfold NewScraper_opts.
  rewrite Hpg, Hpr, Hrfd. simpl. eauto.
Qed.

Lemma NewScraper_opts_inv (p : Payload) (opts : ScrapeOptions) :
  NewScraper_opts p = Ok opts →
  is_Some (Payload_Paginator p) ∧ is_Some (PaginateResults p)
  ∧ is_Some (RandomizeFetchDelay p).
Proof.
  unfold NewScraper_opts.
  destruct (Payload_Paginator p), (PaginateResults p), (RandomizeFetchDelay p);
    simpl; intros; try done; eauto.
Qed.

Lemma NewScraper_opts_no_error (p : Payload) (e : error) :
  NewScraper_opts p ≠ Err e.
Proof.
  unfold NewScraper_opts.
  by destruct (Payload_Paginator p), (PaginateResults p), (RandomizeFetchDelay p).
Qed.

(** After valid Parts, an [error] cannot come any more. *)
Lemma NewScraper_opts_bind_no_error (p : Payload) (k : ScrapeOptions → Scraper)
    (e : error) :
  (let* opts := NewScraper_opts p in Ok (k opts)) ≠ Err e.
Proof.
  destruct (NewScraper_opts p) as [opts|e'|x] eqn:E; simpl; [done| |done].
  by apply NewScraper_opts_no_error in E.
Qed.

Lemma NewScraper_opts_nil (p : Payload) :
  Payload_Paginator p = None ∨ PaginateResults p = None ∨ RandomizeFetchDelay p = None →
  NewScraper_opts p = Panic NilPointerDereference.
Proof.
  unfold NewScraper_opts.
  destruct (Payload_Paginator p), (PaginateResults p), (RandomizeFetchDelay p);
    simpl; intros [?|[?|?]]; done.
Qed.

End NewScraper_results.

(** ** What NewScraper builds and when it fails *)

Section NewScraper_claims.
Context `{Imports}.

(** C9: when [NewScraper] succeeds, the collected selectors are the
    fields' selectors, one a field, and there is at least one, so
    [DividePage] is the divider by intersection over them and never the
    whole-body divider. *)
Theorem NewScraper_divides_by_intersection :
  ∀ (p : Payload) (s : Scraper),
    NewScraper p = Ok s →
    NewScraper_fields (Fields p) [] [] = Ok (Parts s, Field_Selector <$> Fields p)
    ∧ Field_Selector <$> Fields p ≠ []
    ∧ length (Field_Selector <$> Fields p) = length (Fields p)
    ∧ DividePage s = DividePageByIntersection (Field_Selector <$> Fields p)
    ∧ ∀ sel, DividePage s ≠ DividePageBySelector sel.
Proof.
  intros p s (parts & selectors & opts & Hfields & Hvalid & _ & ->)%NewScraper_Ok_inv.
  destruct (NewScraper_fields_ok _ _ Hfields) as [Hsel Hlen]. simpl in Hsel, Hlen.
  subst selectors. simpl.
  assert (Fields p ≠ []) as Hne.
  { intros E. rewrite E in Hfields. simpl in Hfields.
    destruct Hvalid as [Hparts _]. apply Hparts. by inversion Hfields. }
  assert (NewScraper_dividePageFunc (Field_Selector <$> Fields p)
          = DividePageByIntersection (Field_Selector <$> Fields p)) as Hdiv.
  { unfold NewScraper_dividePageFunc. by destruct (Fields p). }
  rewrite Hdiv. split_and!; try done.
  - by destruct (Fields p).
  - by rewrite length_fmap.
Qed.

(** C4: once the loop over the fields has built the Parts, [NewScraper]
    returns [ErrNoParts] when there are none; any [error] it returns
    names a defect that the Parts have (none at all, or, at the first
    Part with a defect, an empty name, a name that an earlier Part has,
    an empty selector); it returns an [error] exactly when the Parts are
    not valid; and on valid Parts it returns a Scraper holding them when
    the payload carries the paginator description and the two flags. *)
Theorem NewScraper_validation :
  ∀ (p : Payload) (parts : list Part) (selectors : list string),
    NewScraper_fields (Fields p) [] [] = Ok (parts, selectors) →
    (parts = [] → NewScraper p = Err ErrNoParts)
    ∧ (∀ e, NewScraper p = Err e → error_describes parts e)
    ∧ ((∃ e, NewScraper p = Err e) ↔ ¬ valid_parts parts)
    ∧ (valid_parts parts →
       is_Some (Payload_Paginator p) → is_Some (PaginateResults p) →
       is_Some (RandomizeFetchDelay p) →
       ∃ s, NewScraper p = Ok s ∧ Parts s = parts).
Proof.
  intros p parts selectors Hfields.
  pose proof (NewScraper_after_fields _ _ _ Hfields) as Hp.
  split_and!.
  - intros ->. done.
  - intros e He. rewrite Hp in He.
    destruct parts as [|part parts]; [by inversion He|].
    destruct (NewScraper_validate 0 ∅ (part :: parts)) as [e'|] eqn:Hv.
    + inversion He; subst. by apply NewScraper_validate_describes.
    + by apply NewScraper_opts_bind_no_error in He.
  - rewrite NewScraper_validate_valid, Hp. split.
    + intros [e He] [Hne Hv]. destruct parts as [|part parts]; [done|].
      rewrite Hv in He. by apply NewScraper_opts_bind_no_error in He.
    + intros Hnot. destruct parts as [|part parts]; [eauto|].
      destruct (NewScraper_validate 0 ∅ (part :: parts)) as [e'|] eqn:Hv; [eauto|].
      destruct Hnot. done.
  - intros [Hne Hv]%NewScraper_validate_valid Hpg Hpr Hrfd.
    destruct (NewScraper_opts_Ok p Hpg Hpr Hrfd) as [opts Hopts].
    rewrite Hp, Hv, Hopts. destruct parts as [|part parts]; [done|].
    simpl. eauto.
Qed.

(** C1: with no paginator description the no-op paginator is chosen, but
    [NewScraper] never succeeds: the literal of [ScrapeOptions] reads
    [p.Paginator.MaxPages] through the nil pointer, so on valid Parts the
    call panics. *)
Theorem NewScraper_nil_paginator :
  ∀ p : Payload,
    Payload_Paginator p = None →
    NewScraper_paginator p = dummyPaginator
    ∧ (∀ s, NewScraper p ≠ Ok s)
    ∧ (∀ parts selectors,
         NewScraper_fields (Fields p) [] [] = Ok (parts, selectors) →
         valid_parts parts →
         NewScraper p = Panic NilPointerDereference).
Proof.
  intros p Hnil. split_and!.
  - unfold NewScraper_paginator. by rewrite Hnil.
  - intros s (parts & selectors & opts & _ & _ & Hopts & _)%NewScraper_Ok_inv.
    apply NewScraper_opts_inv in Hopts as ([pg Hpg] & _). congruence.
  - intros parts selectors Hfields [Hne Hv]%NewScraper_validate_valid.
    rewrite (NewScraper_after_fields _ _ _ Hfields), Hv.
    rewrite NewScraper_opts_nil by auto.
    by destruct parts.
Qed.

Lemma NewScraper_fields_with_flags (p : Payload) (pr rfd : option bool) :
  Fields (with_flags p pr rfd) = Fields p.
Proof. done. Qed.

(** C10: when [NewScraper] succeeds, [PaginateResults] and
    [RandomizeFetchDelay] were present; when the Parts are valid and one
    of the two is nil, the call panics on the nil pointer; and an [error]
    is returned before either is read, whatever the two hold. *)
Theorem NewScraper_dereferences_flags :
  ∀ p : Payload,
    (∀ s, NewScraper p = Ok s →
       is_Some (PaginateResults p) ∧ is_Some (RandomizeFetchDelay p))
    ∧ (∀ parts selectors,
         NewScraper_fields (Fields p) [] [] = Ok (parts, selectors) →
         valid_parts parts →
         PaginateResults p = None ∨ RandomizeFetchDelay p = None →
         NewScraper p = Panic NilPointerDereference)
    ∧ (∀ e paginateResults randomizeFetchDelay,
         NewScraper p = Err e →
         NewScraper (with_flags p paginateResults randomizeFetchDelay) = Err e).
Proof.
  intros p. split_and!.
  - intros s (parts & selectors & opts & _ & _ & Hopts & _)%NewScraper_Ok_inv.
    apply NewScraper_opts_inv in Hopts as (_ & ? & ?). done.
  - intros parts selectors Hfields [Hne Hv]%NewScraper_validate_valid Hnil.
    rewrite (NewScraper_after_fields _ _ _ Hfields), Hv.
    rewrite NewScraper_opts_nil by tauto.
    by destruct parts.
  - intros e pr rfd He.
    destruct (NewScraper_fields (Fields p) [] []) as [[parts selectors]|e'|x] eqn:Hfields.
    + rewrite (NewScraper_after_fields _ _ _ Hfields) in He.
      rewrite (NewScraper_after_fields (with_flags p pr rfd) parts selectors)
        by (by rewrite NewScraper_fields_with_flags).
      destruct parts as [|part parts]; [done|].
      destruct (NewScraper_validate 0 ∅ (part :: parts)); [done|].
      by apply NewScraper_opts_bind_no_error in He.
    + by apply NewScraper_fields_no_error in Hfields.
    + unfold NewScraper in He. by rewrite Hfields in He.
Qed.

End NewScraper_claims.

(** ** Tasks *)

Section Task_claims.
Context `{Imports} `{Libraries}.

Lemma NewScraper_extractor_regex (params : option (gmap string any)) :
  NewScraper_extractor "regex" params =
    let* pat := assert_string (index_params params "regexp") in
    if regexp_compiles pat then Ok (Some (ExtRegex (mkRegex (Some pat))))
    else Panic (RegexpMustCompile pat).
Proof. reflexivity. Qed.

Lemma NewScraper_field_bad_regexp (f : Field) :
  Type_ (Field_Extractor f) = "regex" →
  regexp_param_compiles f = false →
  panics (NewScraper_field f).
Proof.
  unfold regexp_param_compiles, regexp_param, NewScraper_field, NewScraper_params.
  intros Htype Hbad. rewrite Htype.
  destruct (Params (Field_Extractor f)) as [| | | | |m]; simpl; try done.
  rewrite NewScraper_extractor_regex. simpl. unfold index_map.
  destruct (m !! "regexp") as [[| | |pat| |]|]; simpl; try done.
  by rewrite Hbad.
Qed.

(** C3: a field of type "regex" whose [Params["regexp"]] is not a string
    that compiles makes [NewScraper] panic, in [regexp.MustCompile] or
    in a type assertion before it: the construction returns neither a
    Scraper nor an [error], and [NewTask] panics with it. *)
Theorem NewScraper_bad_regexp_panics :
  ∀ (p : Payload) (f : Field),
    f ∈ Fields p →
    Type_ (Field_Extractor f) = "regex" →
    regexp_param_compiles f = false →
    panics (NewScraper p) ∧ ∀ id, panics (NewTask p id).
Proof.
  intros p f Hin Htype Hbad.
  assert (panics (NewScraper p)) as Hp.
  { unfold NewScraper.
    pose proof (NewScraper_fields_panics (Fields p) f [] [] Hin
                  (NewScraper_field_bad_regexp f Htype Hbad)) as Hloop.
    by destruct (NewScraper_fields (Fields p) [] []). }
  split; [done|]. intros id. unfold NewTask.
  by destruct (NewScraper p).
Qed.

(** C6: the [Results] of a Task that [NewTask] returns are the zero
    value: [Visited] is the nil map, with no entry. *)
Theorem NewTask_Visited_empty :
  ∀ (p : Payload) (id : KSUID) (task : Task),
    NewTask p id = Ok task →
    Task_Results task = Results_zero
    ∧ Visited (Task_Results task) = None
    ∧ len_Visited (Task_Results task) = 0.
Proof.
  intros p id task. unfold NewTask.
  destruct (NewScraper p) as [s| |]; simpl; [|done|done].
  intros [= <-]. done.
Qed.

(** C8: where [ksuid.Parse] reads back the text that [String] gave for
    the KSUID drawn in [NewTask], [StartTime] of the returned Task
    returns, without an [error], the time of that KSUID; and [StartTime]
    depends on nothing of a Task but its ID. *)
Theorem StartTime_of_NewTask :
  ∀ (p : Payload) (id : KSUID) (task : Task),
    ksuid_Parse (ksuid_String id) = inr id →
    NewTask p id = Ok task →
    ID task = ksuid_String id
    ∧ StartTime task = Ok (ksuid_Time id)
    ∧ ∀ task', ID task' = ID task → StartTime task' = StartTime task.
Proof.
  intros p id task Hparse. unfold NewTask.
  destruct (NewScraper p) as [s| |]; simpl; [|done|done].
  intros [= <-]. split_and!.
  - done.
  - unfold StartTime. simpl. by rewrite Hparse.
  - intros task' Hid. unfold StartTime. by rewrite Hid.
Qed.

End Task_claims.

(** ** The KSUID text of [Run] *)

Lemma base62_value_char (d : N) :
  (d < 62)%N → Run.base62_value (Run.base62_char d) = Some d.
Proof.
  intros Hd. unfold Run.base62_char, Run.base62_value.
  destruct (N.ltb_spec d 10); [|destruct (N.ltb_spec d 36)];
    rewrite N_ascii_embedding by lia;
    repeat match goal with
           | |- context [N.leb ?a ?b] => destruct (N.leb_spec a b); simpl; try lia
           end;
    f_equal; lia.
Qed.

Lemma length_base62_encode (digits : nat) (v : N) (acc : string) :
  String.length (Run.base62_encode digits v acc) = digits + String.length acc.
Proof.
  revert v acc. induction digits as [|digits IH]; intros v acc; simpl; [done|].
  rewrite IH. simpl. lia.
Qed.

Lemma base62_decode_encode (digits : nat) (v : N) (acc : string) (a : N) :
  (v < 62 ^ N.of_nat digits)%N →
  Run.base62_decode (Run.base62_encode digits v acc) a
  = Run.base62_decode acc (a * 62 ^ N.of_nat digits + v)%N.
Proof.
  revert v acc a. induction digits as [|digits IH]; intros v acc a Hv.
  - simpl in *. f_equal. lia.
  - rewrite Nat2N.inj_succ, N.pow_succ_r' in *. simpl.
    rewrite IH by (apply N.Div0.div_lt_upper_bound; lia).
    simpl. rewrite base62_value_char by (apply N.mod_lt; lia).
    f_equal. pose proof (N.div_mod v 62). lia.
Qed.

(** In [Run], [Parse] reads back the text of every KSUID, a number below
    2^160. *)
Lemma parse_String (k : N) :
  (k < 2 ^ 160)%N → Run.parse (Run.base62_encode 27 k "") = inr k.
Proof.
  intros Hk. unfold Run.parse.
  rewrite length_base62_encode.
  change (negb (Nat.eqb (27 + String.length "") 27)) with false. cbv iota.
  rewrite base62_decode_encode by (eapply N.lt_trans; [exact Hk | reflexivity]).
  change (Run.base62_decode "" ?x) with (Some x). cbv iota.
  rewrite N.mul_0_l, N.add_0_l.
  apply N.ltb_lt in Hk. by rewrite Hk.
Qed.

(** ** The properties on the payloads of [Run] *)

Section Runs.
Import Run.

Lemma valid_parts_title : valid_parts [part_title].
Proof.
  apply NewScraper_validate_valid. split; [discriminate | reflexivity].
Defined.

Lemma NewScraper_nil_paginator_witness :
  Payload_Paginator payload_no_paginator = None
  ∧ NewScraper_paginator payload_no_paginator = dummyPaginator
  ∧ NewScraper payload_no_paginator = Panic NilPointerDereference.
Proof.
  split; [reflexivity|].
  destruct (NewScraper_nil_paginator payload_no_paginator eq_refl) as (Hdummy & _ & Hpanic).
  split; [exact Hdummy|].
  apply (Hpanic [part_title] [".title"]); [reflexivity | exact valid_parts_title].
Defined.

(** The claim of C3 fails here: the construction returns no [error], it
    panics. *)
Lemma NewScraper_bad_regexp_counterexample :
  NewScraper payload_bad_regex = Panic (RegexpMustCompile "(").
Proof. reflexivity. Qed.

Lemma NewScraper_bad_regexp_panics_witness :
  regex_field "price" ".price" "(" ∈ Fields payload_bad_regex
  ∧ Type_ (Field_Extractor (regex_field "price" ".price" "(")) = "regex"
  ∧ regexp_param_compiles (regex_field "price" ".price" "(") = false
  ∧ panics (NewScraper payload_bad_regex)
  ∧ panics (NewTask payload_bad_regex ksuid_readme).
Proof.
  assert (regex_field "price" ".price" "(" ∈ Fields payload_bad_regex) as Hin.
  { right. left. }
  split_and!; [exact Hin | reflexivity | reflexivity | |].
  - apply (NewScraper_bad_regexp_panics payload_bad_regex _ Hin); reflexivity.
  - apply (NewScraper_bad_regexp_panics payload_bad_regex _ Hin); reflexivity.
Defined.

(** The error is that of the first defect met: here the empty selector
    of the Part at index 0, before the repeated name at index 1. *)
Example NewScraper_two_defects :
  NewScraper payload_two_defects = Err (ErrNoSelector 0).
Proof. reflexivity. Qed.

(** The last clause of C4 fails here: the Parts pass every check and no
    Scraper is returned. *)
Lemma NewScraper_validation_counterexample :
  NewScraper_fields (Fields payload_no_paginateResults) [] [] = Ok ([part_title], [".title"])
  ∧ NewScraper_validate 0 ∅ [part_title] = None
  ∧ NewScraper payload_no_paginateResults = Panic NilPointerDereference.
Proof. split_and!; reflexivity. Qed.

Lemma NewScraper_validation_witness :
  NewScraper_fields (Fields payload_title) [] [] = Ok ([part_title], [".title"])
  ∧ ∃ s, NewScraper payload_title = Ok s ∧ Parts s = [part_title].
Proof.
  assert (NewScraper_fields (Fields payload_title) [] []
          = Ok ([part_title], [".title"])) as Hfields by reflexivity.
  split; [exact Hfields|].
  destruct (NewScraper_validation payload_title [part_title] [".title"] Hfields)
    as (_ & _ & _ & Hok).
  apply Hok; [exact valid_parts_title | by eexists ..].
Defined.

Lemma NewScraper_divides_by_intersection_witness :
  NewScraper payload_link = Ok scraper_link
  ∧ DividePage scraper_link = DividePageByIntersection [".title"; "a.more"]
  ∧ [".title"; "a.more"] = Field_Selector <$> Fields payload_link.
Proof.
  assert (NewScraper payload_link = Ok scraper_link) as Hlink by reflexivity.
  split; [exact Hlink|].
  destruct (NewScraper_divides_by_intersection payload_link scraper_link Hlink)
    as (_ & _ & _ & Hdivide & _).
  split; [exact Hdivide | reflexivity].
Defined.

(** The first half of C10 fails here: [NewScraper] returns, with an
    [error], on a payload that has neither flag. *)
Lemma NewScraper_dereferences_flags_counterexample :
  NewScraper payload_empty = Err ErrNoParts
  ∧ PaginateResults payload_empty = None
  ∧ RandomizeFetchDelay payload_empty = None.
Proof. split_and!; reflexivity. Qed.

Lemma NewScraper_dereferences_flags_witness :
  PaginateResults payload_no_paginateResults = None
  ∧ NewScraper payload_no_paginateResults = Panic NilPointerDereference.
Proof.
  split; [reflexivity|].
  destruct (NewScraper_dereferences_flags payload_no_paginateResults) as (_ & Hpanic & _).
  apply (Hpanic [part_title] [".title"]);
    [reflexivity | exact valid_parts_title | by left].
Defined.

Lemma NewTask_readme : NewTask payload_title ksuid_readme = Ok task_readme.
Proof. reflexivity. Qed.

Lemma NewTask_Visited_empty_witness :
  NewTask payload_title ksuid_readme = Ok task_readme
  ∧ len_Visited (Task_Results task_readme) = 0.
Proof.
  split; [exact NewTask_readme|].
  apply (NewTask_Visited_empty payload_title ksuid_readme task_readme NewTask_readme).
Defined.

Lemma StartTime_of_NewTask_witness :
  ksuid_Parse (ksuid_String ksuid_readme) = inr ksuid_readme
  ∧ NewTask payload_title ksuid_readme = Ok task_readme
  ∧ ID task_readme = "0ujtsYcgvSTl8PAuAdqWYSMnLOv"
  ∧ StartTime task_readme = Ok 1507608047%Z.
Proof.
  assert (ksuid_Parse (ksuid_String ksuid_readme) = inr ksuid_readme) as Hparse
    by reflexivity.
  split; [exact Hparse|]. split; [exact NewTask_readme|].
  destruct (StartTime_of_NewTask payload_title ksuid_readme task_readme Hparse NewTask_readme)
    as (Hid & Htime & _).
  split; [reflexivity | exact Htime].
Defined.

End Runs.

(** * More of the code *)

(** ** First and AllBlocks together *)

Lemma concat_elems_app (pages1 pages2 : list (slice block)) :
  concat (elems <$> pages1 ++ pages2)
  = concat (elems <$> pages1) ++ concat (elems <$> pages2).
Proof.
  by rewrite fmap_app, concat_app.
Qed.

Lemma length_concat_elems (pages : list (slice block)) :
  length (concat (elems <$> pages)) = sum_list_with len pages.
Proof.
  induction pages as [|pg pages IH]; [done|].
  rewrite fmap_cons. cbn [concat sum_list_with].
  by rewrite length_app, IH.
Qed.

(** X1: with at least one page, [First] is decided by page 0 alone.  When
    page 0 has a block, [First] returns it and it is the first element
    of [AllBlocks]; when page 0 has none, [First] returns nil whatever
    the later pages hold, and [AllBlocks] is what the later pages hold. *)
Theorem First_and_AllBlocks :
  ∀ (r : Results) (page0 : slice block) (pages : list (slice block)),
    elems (Results_Results r) = page0 :: pages →
    (∀ b bs, elems page0 = b :: bs →
       First r = Ok b ∧ head (elems (AllBlocks r)) = Some b)
    ∧ (elems page0 = [] →
       First r = Ok None
       ∧ elems (AllBlocks r) = concat (elems <$> pages)).
Proof.
  intros r page0 pages Hr.
  assert (elems (AllBlocks r) = elems page0 ++ concat (elems <$> pages)) as Hall.
  { unfold AllBlocks. simpl. rewrite AllBlocks_pages_app, Hr. done. }
  split.
  - intros b bs Hb. split.
    + unfold First, index_slice. rewrite Hr. simpl. unfold len. by rewrite Hb.
    + by rewrite Hall, Hb.
  - intros Hb. split.
    + unfold First, index_slice. rewrite Hr. simpl. unfold len. by rewrite Hb.
    + by rewrite Hall, Hb.
Qed.

(** X2: [AllBlocks] drops and adds nothing: it has as many blocks as the
    pages have together, and on pages put one after the other it is the
    blocks of the first pages followed by the blocks of the later ones,
    whatever [Visited] holds. *)
Theorem AllBlocks_app :
  ∀ (r : Results),
    len (AllBlocks r) = sum_list_with len (elems (Results_Results r))
    ∧ ∀ visited visited1 visited2 pages1 pages2,
        elems (AllBlocks (mkResults visited (Some (pages1 ++ pages2))))
        = elems (AllBlocks (mkResults visited1 (Some pages1)))
          ++ elems (AllBlocks (mkResults visited2 (Some pages2))).
Proof.
  intros r. split.
  - unfold AllBlocks, len at 1. simpl.
    rewrite AllBlocks_pages_app. simpl. apply length_concat_elems.
  - intros visited visited1 visited2 pages1 pages2.
    unfold AllBlocks. cbn [elems default Results_Results].
    rewrite !AllBlocks_pages_app. cbn [elems default app].
    apply concat_elems_app.
Qed.

(** ** PartNames *)

Lemma PartNames_fold (parts : list Part) (names : list string) :
  fold_left (λ names part, names ++ [Name part]) parts names
  = names ++ (Name <$> parts).
Proof.
  revert names. induction parts as [|part parts IH]; intros names; simpl.
  - by rewrite app_nil_r.
  - rewrite IH. by rewrite <- app_assoc.
Qed.

(** X3: [PartNames] returns the names of the Parts in the order of the
    Parts, one a Part, as a slice that is not nil; for a Scraper without
    Parts it is the empty slice. *)
Theorem PartNames_names :
  ∀ s : Scraper,
    PartNames s = Some (Name <$> Parts s)
    ∧ len (PartNames s) = length (Parts s)
    ∧ ∀ paginator dividePage opts,
        PartNames (mkScraper paginator dividePage [] opts) = Some [].
Proof.
  intros s.
  assert (PartNames s = Some (Name <$> Parts s)) as Hnames.
  { unfold PartNames. by rewrite PartNames_fold. }
  split_and!; [done | | done].
  rewrite Hnames. unfold len. simpl. by rewrite length_fmap.
Qed.

(** ** Every field of the loop *)

Section NewScraper_more.
Context `{Imports}.

Lemma known_type_cases (eType : string) :
  known_type eType ↔
    eType = "const" ∨ eType = "count" ∨ eType = "text" ∨ eType = "html"
    ∨ eType = "outerHtml" ∨ eType = "attr" ∨ eType = "regex".
Proof.
  unfold known_type. rewrite !elem_of_cons.
  pose proof (elem_of_nil eType). tauto.
Qed.

(** The inner [switch] on a type other than "regex" cannot panic, and
    leaves [e] nil exactly on a type that is none of the seven. *)
Lemma NewScraper_extractor_cases (eType : string) (params : option (gmap string any)) :
  eType ≠ "regex" →
  ∃ e, NewScraper_extractor eType params = Ok e ∧ (e = None ↔ ¬ known_type eType).
Proof.
  intros Hregex. unfold NewScraper_extractor.
  repeat match goal with
         | |- context [String.eqb eType ?k] =>
             destruct (String.eqb_spec eType k) as [->|?];
               [try (eexists; split; [reflexivity|]; split; [done|];
                     intros Hn; destruct Hn; apply known_type_cases;
                     intuition congruence)|]
         end.
  - done.
  - exists None. split; [done|]. split; [|done].
    intros _ Hk%known_type_cases. intuition congruence.
Qed.

Lemma NewScraper_params_map (f : Field) :
  params_is_map f → NewScraper_params f = Ok (Some (params_map f)).
Proof.
  unfold params_is_map, NewScraper_params, params_map.
  by destruct (Params (Field_Extractor f)).
Qed.

Lemma params_is_map_dec (f : Field) : params_is_map f ∨ ¬ params_is_map f.
Proof. unfold params_is_map. destruct (Params (Field_Extractor f)); tauto. Qed.

(** [params["regexp"].(string)] in terms of [regexp_param]. *)
Lemma assert_string_regexp (f : Field) :
  params_is_map f →
  assert_string (index_map (params_map f) "regexp")
  = match regexp_param f with
    | Some pat => Ok pat
    | None => Panic (InterfaceConversion (index_map (params_map f) "regexp") "string")
    end.
Proof.
  unfold params_is_map, regexp_param, params_map, index_map.
  destruct (Params (Field_Extractor f)) as [| | | | |m]; try done.
  by destruct (m !! "regexp") as [[| | |pat| |]|].
Qed.

(** What one field does: it is processed, and adds Parts of the names
    [field_names], on its selector and without [Details], or it panics. *)
Lemma NewScraper_field_cases (f : Field) :
  (field_ok f
   ∧ ∃ parts,
       NewScraper_field f = Ok (parts, [Field_Selector f])
       ∧ Name <$> parts = field_names f
       ∧ Forall (λ part, Selector part = Field_Selector f ∧ Details part = None) parts)
  ∨ (¬ field_ok f ∧ panics (NewScraper_field f)).
Proof.
  destruct (params_is_map_dec f) as [Hmap|Hmap].
  2: { right. split; [by intros [? _]|].
       unfold NewScraper_field, NewScraper_params, params_is_map in *.
       destruct (Params (Field_Extractor f)); try done; by destruct Hmap. }
  unfold field_ok, field_names, NewScraper_field.
  rewrite (NewScraper_params_map f Hmap). simpl.
  destruct (String.eqb_spec (Type_ (Field_Extractor f)) "link") as [Hl|Hl].
  { left. split; [split_and!; [done | intros Hr; congruence | done]|].
    eexists. split_and!; [done | done | repeat constructor]. }
  destruct (String.eqb_spec (Type_ (Field_Extractor f)) "image") as [Hi|Hi].
  { left. split; [split_and!; [done | intros Hr; congruence | done]|].
    eexists. split_and!; [done | done | repeat constructor]. }
  destruct (String.eqb_spec (Type_ (Field_Extractor f)) "regex") as [Hr|Hr].
  - rewrite Hr, NewScraper_extractor_regex. simpl.
    rewrite (assert_string_regexp f Hmap). unfold regexp_param_compiles.
    destruct (regexp_param f) as [pat|]; simpl.
    + destruct (regexp_compiles pat) eqn:Hc; simpl.
      * left. split.
        { split_and!; [done | done |]. intros _ _ Hn. destruct Hn.
          apply known_type_cases. tauto. }
        eexists. split_and!; [done | done | repeat constructor].
      * right. split; [by intros (_ & Hc' & _); specialize (Hc' eq_refl) | done].
    + right. split; [by intros (_ & Hc' & _); specialize (Hc' eq_refl) | done].
  - destruct (NewScraper_extractor_cases _ (Some (params_map f)) Hr) as (e & -> & He).
    simpl. destruct e as [e|]; simpl.
    + left. split.
      { split_and!; [done | done |]. intros _ _ Hn. by apply He in Hn. }
      eexists. split_and!; [done | done | repeat constructor].
    + destruct (FillStruct_nil (params_map f)) as [x|] eqn:Hnil; simpl.
      * right. split; [|done]. intros (_ & _ & Hfill).
        specialize (Hfill Hl Hi (proj1 He eq_refl)). congruence.
      * left. split; [by split_and!|].
        eexists. split_and!; [done | done | repeat constructor].
Qed.

Lemma field_names_not_nil (f : Field) : field_names f ≠ [].
Proof.
  unfold field_names.
  destruct (String.eqb _ "link"); [done|]. by destruct (String.eqb _ "image").
Qed.

(** What the loop does on the fields: all are processed, and the Parts
    have the names [field_names] of the fields in order, each Part on
    the selector of a field and each field with a Part on its selector,
    or the loop panics. *)
Lemma NewScraper_fields_cases (fields : list Field) :
  (Forall field_ok fields
   ∧ ∃ parts,
       NewScraper_fields fields [] [] = Ok (parts, Field_Selector <$> fields)
       ∧ Name <$> parts = concat (field_names <$> fields)
       ∧ Forall (λ part, Details part = None
                         ∧ Selector part ∈ (Field_Selector <$> fields)) parts
       ∧ Forall (λ f, ∃ part, part ∈ parts ∧ Selector part = Field_Selector f) fields)
  ∨ (¬ Forall field_ok fields ∧ panics (NewScraper_fields fields [] [])).
Proof.
  induction fields as [|f fields IH].
  - left. split; [constructor|]. exists []. split_and!; by constructor.
  - cbn [NewScraper_fields].
    destruct (NewScraper_field_cases f)
      as [(Hf & parts0 & -> & Hnames0 & Hparts0)|(Hf & Hpanic)].
    + cbn [res_bind fst snd app]. rewrite NewScraper_fields_acc.
      destruct IH as [(Hfields & parts & -> & Hnames & Hparts & Hsel)|(Hfields & Hpanic)].
      * left. split; [by constructor|]. exists (parts0 ++ parts).
        cbn [res_bind fst snd app]. split_and!.
        -- done.
        -- rewrite fmap_app, Hnames0, Hnames. done.
        -- apply Forall_app. split.
           ++ eapply Forall_impl; [exact Hparts0|]. intros part [-> ->].
              split; [done|]. rewrite fmap_cons. left.
           ++ eapply Forall_impl; [exact Hparts|]. intros part [? ?].
              split; [done|]. rewrite fmap_cons. by right.
        -- constructor.
           ++ destruct parts0 as [|part0 parts0'].
              { exfalso. by apply (field_names_not_nil f). }
              exists part0. split; [left|].
              by inversion Hparts0 as [|? ? [? _]].
           ++ eapply Forall_impl; [exact Hsel|]. intros f' (part & Hin & Heq).
              exists part. split; [|done]. apply elem_of_app. by right.
      * right. split; [by intros Hall; inversion Hall|].
        cbn [res_bind fst snd app].
        by destruct (NewScraper_fields fields [] []).
    + right. split; [by intros Hall; inversion Hall|].
      by destruct (NewScraper_field f).
Qed.

(** C5: a field of type "link" named X.  With [Params] left out or an
    object it yields exactly the two Parts X_text and X_link, both on
    the field's selector, around what [FillStruct] leaves of the default
    link extractor, and one selector, whatever the overrides in [Params]
    are; with [Params] that are not an object the type assertion panics
    and no Part is made.  In the loop, between fields that can be
    processed, the run ends normally and these two Parts stand, in this
    order, between the Parts of the fields before and the Parts of the
    fields after; and every run that ends normally has them there. *)
Theorem NewScraper_link_parts :
  ∀ f : Field,
    Type_ (Field_Extractor f) = "link" →
    (params_is_map f →
       NewScraper_field f
       = Ok (link_parts f (Link_Text (link_filled f)) (Link_Href (link_filled f)),
             [Field_Selector f]))
    ∧ (¬ params_is_map f →
       NewScraper_field f
       = Panic (InterfaceConversion (Params (Field_Extractor f))
                  "map[string]interface {}"))
    ∧ (params_is_map f →
       ∀ fields1 fields2,
         Forall field_ok fields1 → Forall field_ok fields2 →
         ∃ parts1 parts2,
           NewScraper_fields fields1 [] [] = Ok (parts1, Field_Selector <$> fields1)
           ∧ NewScraper_fields fields2 [] [] = Ok (parts2, Field_Selector <$> fields2)
           ∧ NewScraper_fields (fields1 ++ f :: fields2) [] []
             = Ok (parts1
                   ++ link_parts f (Link_Text (link_filled f)) (Link_Href (link_filled f))
                   ++ parts2,
                   Field_Selector <$> fields1 ++ f :: fields2))
    ∧ (∀ fields1 fields2 parts selectors,
         NewScraper_fields (fields1 ++ f :: fields2) [] [] = Ok (parts, selectors) →
         ∃ parts1 parts2,
           NewScraper_fields fields1 [] [] = Ok (parts1, Field_Selector <$> fields1)
           ∧ NewScraper_fields fields2 [] [] = Ok (parts2, Field_Selector <$> fields2)
           ∧ parts = parts1
                     ++ link_parts f (Link_Text (link_filled f)) (Link_Href (link_filled f))
                     ++ parts2).
Proof.
  intros f Hlink.
  assert (params_is_map f →
          NewScraper_field f
          = Ok (link_parts f (Link_Text (link_filled f)) (Link_Href (link_filled f)),
                [Field_Selector f])) as Hstep.
  { intros Hmap. unfold NewScraper_field.
    rewrite (NewScraper_params_map f Hmap), Hlink. reflexivity. }
  assert (¬ params_is_map f →
          NewScraper_field f
          = Panic (InterfaceConversion (Params (Field_Extractor f))
                     "map[string]interface {}")) as Hpanic.
  { unfold params_is_map, NewScraper_field, NewScraper_params.
    by destruct (Params (Field_Extractor f)). }
  split_and!; [exact Hstep | exact Hpanic | |].
  - intros Hmap fields1 fields2 Hok1 Hok2.
    destruct (NewScraper_fields_cases fields1) as [(_ & parts1 & Hrun1 & _)|(Hbad & _)];
      [|done].
    destruct (NewScraper_fields_cases fields2) as [(_ & parts2 & Hrun2 & _)|(Hbad & _)];
      [|done].
    exists parts1, parts2. split_and!; [done | done |].
    rewrite NewScraper_fields_app, Hrun1. cbn [res_bind NewScraper_fields].
    rewrite (Hstep Hmap). cbn [res_bind fst snd app].
    rewrite NewScraper_fields_acc, Hrun2. cbn [res_bind fst snd].
    by rewrite fmap_app, fmap_cons.
  - intros fields1 fields2 parts selectors Hrun.
    rewrite NewScraper_fields_app in Hrun.
    destruct (NewScraper_fields fields1 [] []) as [[parts1 ss1]| |] eqn:E1;
      simpl in Hrun; [|done|done].
    destruct (params_is_map_dec f) as [Hmap|Hmap];
      [|by rewrite (Hpanic Hmap) in Hrun].
    rewrite (Hstep Hmap) in Hrun. simpl in Hrun.
    rewrite NewScraper_fields_acc in Hrun.
    destruct (NewScraper_fields fields2 [] []) as [[parts2 ss2]| |] eqn:E2;
      simpl in Hrun; [|done|done].
    injection Hrun as <- <-.
    destruct (NewScraper_fields_ok _ _ E1) as [Hs1 _].
    destruct (NewScraper_fields_ok _ _ E2) as [Hs2 _].
    simpl in Hs1, Hs2. subst ss1 ss2.
    exists parts1, parts2. done.
Qed.

(** X4: the loop over the fields ends normally exactly when every field
    has [Params] left out or an object, every "regex" field holds a
    string that compiles at "regexp", and for every field of a type that
    is none of the nine the call [FillStruct(params, nil)] returns;
    otherwise it panics; it never returns an [error]. *)
Theorem NewScraper_fields_panic_free :
  ∀ fields : list Field,
    ((∃ r, NewScraper_fields fields [] [] = Ok r) ↔ Forall field_ok fields)
    ∧ (panics (NewScraper_fields fields [] []) ↔ ¬ Forall field_ok fields)
    ∧ ∀ e, NewScraper_fields fields [] [] ≠ Err e.
Proof.
  intros fields.
  destruct (NewScraper_fields_cases fields) as [(Hok & parts & Hrun & _)|(Hbad & Hpanic)].
  - rewrite Hrun. split_and!; [| |done].
    + split; [done | eauto].
    + split; [done | by intros Hn].
  - split_and!.
    + split; [|done]. intros [r Hr]. by rewrite Hr in Hpanic.
    + done.
    + apply NewScraper_fields_no_error.
Qed.

(** X5: [NewScraper] returns a Scraper exactly when the loop over the
    fields ends normally, the Parts are valid, and the payload has the
    paginator description and the two flags; the Scraper then holds the
    selector paginator of the description, the divider by intersection
    over the fields' selectors, the Parts, and the options copied from
    the payload, [MaxPages] from the paginator description. *)
Theorem NewScraper_Ok_iff :
  ∀ (p : Payload) (s : Scraper),
    NewScraper p = Ok s ↔
      ∃ parts pg paginateResults randomizeFetchDelay,
        NewScraper_fields (Fields p) [] [] = Ok (parts, Field_Selector <$> Fields p)
        ∧ valid_parts parts
        ∧ Payload_Paginator p = Some pg
        ∧ PaginateResults p = Some paginateResults
        ∧ RandomizeFetchDelay p = Some randomizeFetchDelay
        ∧ s = mkScraper
                (BySelector (paginator_Selector pg) (paginator_Attribute pg))
                (DividePageByIntersection (Field_Selector <$> Fields p))
                parts
                (mkScrapeOptions (paginator_MaxPages pg) (Format p) paginateResults
                   (FetchDelay p) randomizeFetchDelay (RetryTimes p)).
Proof.
  intros p s.
  assert (∀ parts, NewScraper_fields (Fields p) [] [] = Ok (parts, Field_Selector <$> Fields p) →
                   parts ≠ [] →
                   NewScraper_dividePageFunc (Field_Selector <$> Fields p)
                   = DividePageByIntersection (Field_Selector <$> Fields p)) as Hdiv.
  { intros parts Hfields Hne. unfold NewScraper_dividePageFunc.
    destruct (Fields p) as [|f fields]; [|done].
    simpl in Hfields. by inversion Hfields. }
  split.
  - intros (parts & selectors & opts & Hfields & Hvalid & Hopts & ->)%NewScraper_Ok_inv.
    destruct (NewScraper_fields_ok _ _ Hfields) as [Hsel _]. simpl in Hsel. subst selectors.
    unfold NewScraper_opts, NewScraper_paginator in *.
    destruct (Payload_Paginator p) as [pg|]; [|done].
    destruct (PaginateResults p) as [pr|]; [|done].
    destruct (RandomizeFetchDelay p) as [rfd|]; [|done].
    simpl in Hopts. injection Hopts as <-.
    exists parts, pg, pr, rfd. split_and!; try done.
    rewrite (Hdiv parts Hfields); [done|]. by destruct Hvalid.
  - intros (parts & pg & pr & rfd & Hfields & Hvalid & Hpg & Hpr & Hrfd & ->).
    rewrite (NewScraper_after_fields _ _ _ Hfields).
    destruct (proj1 (NewScraper_validate_valid parts) Hvalid) as [Hne Hv].
    rewrite Hv. unfold NewScraper_opts, NewScraper_paginator.
    rewrite Hpg, Hpr, Hrfd, (Hdiv parts Hfields Hne). simpl.
    by destruct parts.
Qed.

(** X6: [NewScraper] returns [ErrNoParts] exactly when the payload has
    no field: every field that is processed adds a Part. *)
Theorem NewScraper_ErrNoParts_iff :
  ∀ p : Payload, NewScraper p = Err ErrNoParts ↔ Fields p = [].
Proof.
  intros p. split.
  - intros He.
    destruct (NewScraper_fields (Fields p) [] []) as [[parts selectors]|e|x] eqn:Hfields.
    + rewrite (NewScraper_after_fields _ _ _ Hfields) in He.
      destruct (NewScraper_fields_ok _ _ Hfields) as [_ Hlen]. simpl in Hlen.
      destruct parts as [|part parts].
      { destruct (Fields p); [done | simpl in Hlen; lia]. }
      destruct (NewScraper_validate 0 ∅ (part :: parts)) as [e|] eqn:Hv.
      * injection He as ->.
        apply NewScraper_validate_Some in Hv as (k & part' & _ & _ & Hcases).
        by destruct Hcases as [[? _]|[[? _]|[? _]]].
      * by apply NewScraper_opts_bind_no_error in He.
    + by apply NewScraper_fields_no_error in Hfields.
    + unfold NewScraper in He. by rewrite Hfields in He.
  - intros Hnil. unfold NewScraper. by rewrite Hnil.
Qed.

(** X7: the names that [PartNames] gives for a Scraper that [NewScraper]
    returned are fixed by the names and types of the fields, in order:
    X_text and X_link for a link field X, X_src and X_alt for an image
    field X, X for any other field. *)
Theorem PartNames_of_NewScraper :
  ∀ (p : Payload) (s : Scraper),
    NewScraper p = Ok s →
    PartNames s = Some (concat (field_names <$> Fields p)).
Proof.
  intros p s (parts & selectors & opts & Hfields & _ & _ & ->)%NewScraper_Ok_inv.
  unfold PartNames. rewrite PartNames_fold. simpl.
  destruct (NewScraper_fields_cases (Fields p))
    as [(_ & parts' & Hrun & Hnames & _)|(_ & Hpanic)].
  - rewrite Hrun in Hfields. injection Hfields as <- _. by rewrite Hnames.
  - by rewrite Hfields in Hpanic.
Qed.

(** X8: every Scraper that [NewScraper] returns has at least one Part,
    no two Parts of one name, no Part with an empty name or an empty
    selector, no Part with [Details]; every Part is on the selector of a
    field, and no field has an empty selector. *)
Theorem NewScraper_Parts_invariant :
  ∀ (p : Payload) (s : Scraper),
    NewScraper p = Ok s →
    Parts s ≠ []
    ∧ NoDup (elems (PartNames s))
    ∧ ("" ∉ elems (PartNames s))
    ∧ Forall (λ part, Selector part ≠ ""
                      ∧ Selector part ∈ (Field_Selector <$> Fields p)
                      ∧ Details part = None) (Parts s)
    ∧ Forall (λ f, Field_Selector f ≠ "") (Fields p).
Proof.
  intros p s (parts & selectors & opts & Hfields & Hvalid & _ & ->)%NewScraper_Ok_inv.
  destruct Hvalid as (Hne & Hnd & Hall).
  unfold PartNames. rewrite PartNames_fold. simpl.
  destruct (NewScraper_fields_cases (Fields p))
    as [(_ & parts' & Hrun & _ & Hparts & Hsel)|(_ & Hpanic)];
    [|by rewrite Hfields in Hpanic].
  rewrite Hrun in Hfields. injection Hfields as -> _.
  split_and!; try done.
  - intros (part & Hname & Hin)%list_elem_of_fmap.
    rewrite Forall_forall in Hall. by destruct (Hall part Hin).
  - rewrite Forall_forall in Hall, Hparts. apply Forall_forall. intros part Hin.
    destruct (Hall part Hin) as [_ ?]. destruct (Hparts part Hin) as [? ?]. done.
  - rewrite Forall_forall in Hall. eapply Forall_impl; [exact Hsel|].
    intros f (part & Hin & <-). by destruct (Hall part Hin).
Qed.

(** X9: an image field named X, with [Params] left out or an object,
    yields exactly the two Parts X_src and X_alt on the field's selector;
    their extractors are the attribute extractors that [FillStruct]
    leaves of the defaults "src" and "alt". *)
Theorem NewScraper_image_parts :
  ∀ f : Field,
    Type_ (Field_Extractor f) = "image" →
    params_is_map f →
    NewScraper_field f
    = Ok (image_parts f
            (Image_Src (FillStruct_Image (params_map f)
                          (mkImage (mkAttr "src") (mkAttr "alt"))).1)
            (Image_Alt (FillStruct_Image (params_map f)
                          (mkImage (mkAttr "src") (mkAttr "alt"))).1),
          [Field_Selector f]).
Proof.
  intros f Himage Hmap. unfold NewScraper_field.
  rewrite (NewScraper_params_map f Hmap), Himage. reflexivity.
Qed.

(** X10: a field whose type is neither "link" nor "image", with [Params]
    left out or an object and, for "regex", a string that compiles at
    "regexp".  For one of the seven known types it yields exactly one
    Part, of the field's name and selector, with an extractor.  For any
    other type the extractor stays nil and the step is decided by the
    call [FillStruct(params, nil)]: its panic is the step's panic, and
    when it returns the field yields exactly one Part without extractor
    and is not rejected: alone in a payload with a name, a selector, the
    paginator description and the two flags, it gives a Scraper. *)
Theorem NewScraper_other_field :
  ∀ f : Field,
    Type_ (Field_Extractor f) ≠ "link" →
    Type_ (Field_Extractor f) ≠ "image" →
    params_is_map f →
    (Type_ (Field_Extractor f) = "regex" → regexp_param_compiles f = true) →
    (known_type (Type_ (Field_Extractor f)) →
       ∃ e, NewScraper_field f
            = Ok ([mkPart (Field_Name f) (Field_Selector f) (Some e) None],
                  [Field_Selector f]))
    ∧ (¬ known_type (Type_ (Field_Extractor f)) →
       NewScraper_field f
       = match FillStruct_nil (params_map f) with
         | Some x => Panic x
         | None => Ok ([mkPart (Field_Name f) (Field_Selector f) None None],
                       [Field_Selector f])
         end)
    ∧ (∀ p, Fields p = [f] →
            ¬ known_type (Type_ (Field_Extractor f)) →
            FillStruct_nil (params_map f) = None →
            Field_Name f ≠ "" → Field_Selector f ≠ "" →
            is_Some (Payload_Paginator p) → is_Some (PaginateResults p) →
            is_Some (RandomizeFetchDelay p) →
            ∃ s, NewScraper p = Ok s
                 ∧ Parts s = [mkPart (Field_Name f) (Field_Selector f) None None]).
Proof.
  intros f Hlink Himage Hmap Hregex.
  assert (NewScraper_field f
          = let* e := NewScraper_extractor (Type_ (Field_Extractor f))
                        (Some (params_map f)) in
            let* e := fill_e (Some (params_map f)) e in
            Ok ([mkPart (Field_Name f) (Field_Selector f) e None], [Field_Selector f]))
    as Hstep.
  { unfold NewScraper_field. rewrite (NewScraper_params_map f Hmap). simpl.
    destruct (String.eqb_spec (Type_ (Field_Extractor f)) "link"); [done|].
    by destruct (String.eqb_spec (Type_ (Field_Extractor f)) "image"). }
  assert (¬ known_type (Type_ (Field_Extractor f)) →
          NewScraper_field f
          = match FillStruct_nil (params_map f) with
            | Some x => Panic x
            | None => Ok ([mkPart (Field_Name f) (Field_Selector f) None None],
                          [Field_Selector f])
            end) as Hunknown.
  { intros Hn. rewrite Hstep.
    assert (Type_ (Field_Extractor f) ≠ "regex") as Hr.
    { intros Hr. apply Hn, known_type_cases. tauto. }
    destruct (NewScraper_extractor_cases _ (Some (params_map f)) Hr) as (e & -> & He).
    rewrite (proj2 He Hn). simpl. by destruct (FillStruct_nil (params_map f)). }
  split_and!.
  - intros Hk. rewrite Hstep.
    destruct (String.eqb_spec (Type_ (Field_Extractor f)) "regex") as [Hr|Hr].
    + specialize (Hregex Hr). rewrite Hr, NewScraper_extractor_regex. simpl.
      rewrite (assert_string_regexp f Hmap).
      unfold regexp_param_compiles in Hregex.
      destruct (regexp_param f) as [pat|]; [|done]. simpl. rewrite Hregex. simpl.
      eauto.
    + destruct (NewScraper_extractor_cases _ (Some (params_map f)) Hr) as (e & -> & He).
      destruct e as [e|]; [simpl; eauto|]. by destruct (proj1 He eq_refl).
  - exact Hunknown.
  - intros p Hfields Hn Hnil Hname Hsel Hpg Hpr Hrfd.
    assert (NewScraper_fields (Fields p) [] []
            = Ok ([mkPart (Field_Name f) (Field_Selector f) None None],
                  [Field_Selector f])) as Hrun.
    { rewrite Hfields. simpl. rewrite (Hunknown Hn), Hnil. done. }
    rewrite (NewScraper_after_fields _ _ _ Hrun). simpl.
    destruct (Nat.eqb (String.length (Field_Name f)) 0) eqn:E1.
    { by apply String_length_0 in E1. }
    destruct (decide (Field_Name f ∈ (∅ : gset string))) as [Hin|_].
    { by apply not_elem_of_empty in Hin. }
    destruct (Nat.eqb (String.length (Field_Selector f)) 0) eqn:E2.
    { by apply String_length_0 in E2. }
    destruct (NewScraper_opts_Ok p Hpg Hpr Hrfd) as [opts ->]. simpl. eauto.
Qed.

Lemma append_not_empty (s t : string) : t ≠ "" → s +:+ t ≠ "".
Proof. intros Ht. destruct s; [done|]. discriminate. Qed.

(** X11: the two Parts of a link or an image field never have an empty
    name and never share a name, so a field of one of these types alone
    in a payload is accepted whatever its name is, the empty name too,
    when it has a selector, [Params] left out or an object, and the
    payload has the paginator description and the two flags. *)
Theorem NewScraper_composite_any_name :
  ∀ (p : Payload) (f : Field),
    Fields p = [f] →
    Type_ (Field_Extractor f) = "link" ∨ Type_ (Field_Extractor f) = "image" →
    params_is_map f →
    Field_Selector f ≠ "" →
    is_Some (Payload_Paginator p) → is_Some (PaginateResults p) →
    is_Some (RandomizeFetchDelay p) →
    ∃ s, NewScraper p = Ok s ∧ PartNames s = Some (field_names f)
         ∧ length (Parts s) = 2.
Proof.
  intros p f Hfields Htype Hmap Hsel Hpg Hpr Hrfd.
  assert (field_ok f) as Hok.
  { split_and!; [done | |].
    - intros Hr. destruct Htype as [Ht|Ht]; congruence.
    - intros Hl Hi. destruct Htype as [Ht|Ht]; congruence. }
  destruct (NewScraper_field_cases f)
    as [(_ & parts & Hstep & Hnames & Hparts)|(Hbad & _)]; [|done].
  assert (NewScraper_fields (Fields p) [] [] = Ok (parts, [Field_Selector f])) as Hrun.
  { rewrite Hfields. simpl. by rewrite Hstep. }
  assert (∃ n1 n2, field_names f = [n1; n2] ∧ n1 ≠ n2 ∧ n1 ≠ "" ∧ n2 ≠ "")
    as (n1 & n2 & Hf & Hne & Hn1 & Hn2).
  { unfold field_names. destruct Htype as [->| ->]; simpl.
    - eexists _, _. split; [done|]. split_and!; [|by apply append_not_empty..].
      by intros ?%(inj (String.append _)).
    - eexists _, _. split; [done|]. split_and!; [|by apply append_not_empty..].
      by intros ?%(inj (String.append _)). }
  rewrite Hf in Hnames.
  destruct parts as [|part1 [|part2 [|part3 parts]]]; try done.
  injection Hnames as Hp1 Hp2.
  assert (valid_parts [part1; part2]) as Hvalid.
  { split; [done|]. split.
    - simpl. rewrite Hp1, Hp2. apply NoDup_cons. split.
      + by intros ->%list_elem_of_singleton.
      + apply NoDup_singleton.
    - inversion Hparts as [|? ? [Hs1 _] Hparts']. inversion Hparts' as [|? ? [Hs2 _] _].
      repeat constructor; congruence. }
  destruct (proj1 (NewScraper_validate_valid _) Hvalid) as [_ Hv].
  destruct (NewScraper_opts_Ok p Hpg Hpr Hrfd) as [opts Hopts].
  rewrite (NewScraper_after_fields _ _ _ Hrun), Hv, Hopts. simpl.
  eexists. split; [reflexivity|]. split; [|done].
  unfold PartNames. simpl. by rewrite Hp1, Hp2, Hf.
Qed.

Lemma elem_of_concat_lookup {A} (ls : list (list A)) (i : nat) (l : list A) (x : A) :
  ls !! i = Some l → x ∈ l → x ∈ concat ls.
Proof.
  revert i. induction ls as [|l' ls IH]; intros [|i] Hi Hx; simpl in *; try done.
  - injection Hi as ->. apply elem_of_app. by left.
  - apply elem_of_app. right. by apply (IH i).
Qed.

Lemma NoDup_concat_lookup {A} (ls : list (list A)) (i j : nat) (a b : list A) (x : A) :
  NoDup (concat ls) → ls !! i = Some a → ls !! j = Some b → i ≠ j →
  x ∈ a → x ∈ b → False.
Proof.
  revert i j. induction ls as [|l ls IH]; intros i j Hnd Hi Hj Hij Ha Hb; [done|].
  simpl in Hnd. apply NoDup_app in Hnd as (_ & Hdisj & Hnd).
  destruct i as [|i], j as [|j]; simpl in *; try done.
  - injection Hi as ->. apply (Hdisj x Ha). by apply (elem_of_concat_lookup ls j b).
  - injection Hj as ->. apply (Hdisj x Hb). by apply (elem_of_concat_lookup ls i a).
  - apply (IH i j); try done. congruence.
Qed.

(** X12: two different fields that give a Part of the same name (two
    fields of one name, or a link field X and a field named X_text) are
    never accepted: [NewScraper] returns no Scraper, and when every
    field can be processed ([field_ok], the call [FillStruct(params,
    nil)] of a field of unknown type included) it returns an [error]. *)
Theorem NewScraper_name_collision :
  ∀ (p : Payload) (i j : nat) (fi fj : Field) (name : string),
    Fields p !! i = Some fi → Fields p !! j = Some fj → i ≠ j →
    name ∈ field_names fi → name ∈ field_names fj →
    ((∃ e, NewScraper p = Err e) ∨ panics (NewScraper p))
    ∧ (Forall field_ok (Fields p) → ∃ e, NewScraper p = Err e).
Proof.
  intros p i j fi fj name Hi Hj Hij Hni Hnj.
  destruct (NewScraper_fields_cases (Fields p))
    as [(Hok & parts & Hrun & Hnames & _)|(Hbad & Hpanic)].
  - assert (∃ e, NewScraper p = Err e) as He.
    { rewrite (NewScraper_after_fields _ _ _ Hrun).
      destruct parts as [|part parts]; [eauto|].
      destruct (NewScraper_validate 0 ∅ (part :: parts)) as [e|] eqn:Hv; [eauto|].
      exfalso. apply NewScraper_validate_None in Hv as [[Hnd _] _].
      rewrite Hnames in Hnd.
      apply (NoDup_concat_lookup (field_names <$> Fields p) i j
               (field_names fi) (field_names fj) name Hnd); try done.
      - by rewrite list_lookup_fmap, Hi.
      - by rewrite list_lookup_fmap, Hj. }
    split; [by left | done].
  - split; [|done]. right. unfold NewScraper.
    by destruct (NewScraper_fields (Fields p) [] []).
Qed.

(** X13: the panic of a field that the loop cannot process.  [Params]
    that are neither left out nor an object fail the assertion to a map,
    whatever the type; a "regex" field without a string at "regexp"
    (the key is missing, [Params] are left out, or the value is not a
    string) fails the assertion to a string; a string that does not
    compile panics in [regexp.MustCompile]. *)
Theorem NewScraper_field_panic :
  ∀ f : Field,
    (¬ params_is_map f →
       NewScraper_field f
       = Panic (InterfaceConversion (Params (Field_Extractor f))
                  "map[string]interface {}"))
    ∧ (params_is_map f → Type_ (Field_Extractor f) = "regex" →
       regexp_param f = None →
       NewScraper_field f
       = Panic (InterfaceConversion (index_map (params_map f) "regexp") "string"))
    ∧ (∀ pat, Type_ (Field_Extractor f) = "regex" →
         regexp_param f = Some pat → regexp_compiles pat = false →
         NewScraper_field f = Panic (RegexpMustCompile pat)).
Proof.
  intros f. split_and!.
  - unfold params_is_map, NewScraper_field, NewScraper_params.
    by destruct (Params (Field_Extractor f)).
  - intros Hmap Hr Hnone. unfold NewScraper_field.
    rewrite (NewScraper_params_map f Hmap), Hr. simpl.
    rewrite NewScraper_extractor_regex. simpl.
    unfold regexp_param, params_map, index_map in *.
    destruct (Params (Field_Extractor f)) as [| | | | |m]; try done.
    by destruct (m !! "regexp") as [[| | |pat| |]|].
  - intros pat Hr Hsome Hbad. unfold NewScraper_field, NewScraper_params.
    unfold regexp_param in Hsome.
    destruct (Params (Field_Extractor f)) as [| | | | |m]; try done.
    simpl. rewrite Hr. simpl. rewrite NewScraper_extractor_regex. simpl.
    unfold index_map.
    destruct (m !! "regexp") as [[| | |pat'| |]|]; try done.
    injection Hsome as ->. simpl. by rewrite Hbad.
Qed.

(** X14: [NewScraper] panics with the panic of the first field that
    cannot be processed: when the fields before it can be processed
    ([field_ok], the call [FillStruct(params, nil)] of a field of
    unknown type included), the panic of its step, that of a type
    assertion, of [regexp.MustCompile] or of [FillStruct(params, nil)],
    is the panic of [NewScraper]; the fields after it, the validation
    and the payload's pointers are not looked at. *)
Theorem NewScraper_first_panic :
  ∀ (p : Payload) (fields1 fields2 : list Field) (f : Field) (x : panic),
    Fields p = fields1 ++ f :: fields2 →
    Forall field_ok fields1 →
    NewScraper_field f = Panic x →
    NewScraper p = Panic x.
Proof.
  intros p fields1 fields2 f x Hfields Hok Hpanic.
  unfold NewScraper. rewrite Hfields, NewScraper_fields_app.
  destruct (NewScraper_fields_cases fields1) as [(_ & parts1 & -> & _)|(Hbad & _)];
    [|done].
  simpl. by rewrite Hpanic.
Qed.

End NewScraper_more.

(** ** A new Task *)

Section Task_more.
Context `{Imports} `{Libraries}.

(** X15: [NewTask] returns what [NewScraper] returns: the same [error],
    the same panic, or a Task around the Scraper, with the text of the
    KSUID as ID, an empty status and session, and no results yet: on the
    new Task [AllBlocks] is the empty slice and [First] panics. *)
Theorem NewTask_of_NewScraper :
  ∀ (p : Payload) (id : KSUID),
    (∀ e, NewTask p id = Err e ↔ NewScraper p = Err e)
    ∧ (∀ x, NewTask p id = Panic x ↔ NewScraper p = Panic x)
    ∧ (∀ task, NewTask p id = Ok task ↔
         ∃ s, NewScraper p = Ok s
              ∧ task = mkTask (ksuid_String id) (Some s) Session_zero "" Results_zero)
    ∧ (∀ task, NewTask p id = Ok task →
         AllBlocks (Task_Results task) = Some []
         ∧ First (Task_Results task) = Panic (IndexOutOfRange 0 0)).
Proof.
  intros p id. unfold NewTask.
  destruct (NewScraper p) as [s|e|x]; simpl; split_and!.
  - done.
  - done.
  - intros task. split.
    + intros [= <-]. eauto.
    + intros (s' & [= <-] & ->). done.
  - by intros task [= <-].
  - intros e'. split; by intros [= ->].
  - done.
  - intros task. split; [done | by intros (s' & Hs & _)].
  - done.
  - done.
  - intros x'. split; by intros [= ->].
  - intros task. split; [done | by intros (s' & Hs & _)].
  - done.
Qed.

End Task_more.

(** ** More runs on the payloads of [Run] *)

Section Runs_more.
Import Run.

Lemma First_and_AllBlocks_witness :
  (First results_two_pages = Ok (block_of "A")
   ∧ head (elems (AllBlocks results_two_pages)) = Some (block_of "A"))
  ∧ (First results_empty_first = Ok None
     ∧ elems (AllBlocks results_empty_first) = [block_of "C"]).
Proof.
  split.
  - apply (proj1 (First_and_AllBlocks results_two_pages
                    (Some [block_of "A"; block_of "B"]) [Some []] eq_refl)
             (block_of "A") [block_of "B"]).
    reflexivity.
  - apply (proj2 (First_and_AllBlocks results_empty_first
                    (Some []) [Some [block_of "C"]] eq_refl)).
    reflexivity.
Defined.

(** The claim of C5 fails here: a link field whose [Params] are a
    string yields no Part, the construction panics. *)
Lemma NewScraper_link_parts_counterexample :
  Type_ (Field_Extractor field_link_string) = "link"
  ∧ NewScraper_field field_link_string
    = Panic (InterfaceConversion (AnyString "data-href") "map[string]interface {}")
  ∧ NewScraper payload_link_string
    = Panic (InterfaceConversion (AnyString "data-href") "map[string]interface {}").
Proof. split_and!; reflexivity. Qed.

Lemma NewScraper_link_parts_witness :
  (Type_ (Field_Extractor field_more) = "link" ∧ params_is_map field_more)
  ∧ NewScraper_field field_more
    = Ok (link_parts field_more mkText (mkAttr "href"), ["a.more"])
  ∧ NewScraper_field field_link_string
    = Panic (InterfaceConversion (AnyString "data-href") "map[string]interface {}")
  ∧ (∃ parts1 parts2,
       NewScraper_fields [text_field "title" ".title"] [] [] = Ok (parts1, [".title"])
       ∧ NewScraper_fields [] [] [] = Ok (parts2, [])
       ∧ NewScraper_fields (Fields payload_link) [] []
         = Ok (parts1 ++ link_parts field_more mkText (mkAttr "href") ++ parts2,
               [".title"; "a.more"]))
  ∧ (∃ parts1 parts2,
       NewScraper_fields [text_field "title" ".title"] [] [] = Ok (parts1, [".title"])
       ∧ NewScraper_fields [] [] [] = Ok (parts2, [])
       ∧ Parts scraper_link
         = parts1 ++ link_parts field_more mkText (mkAttr "href") ++ parts2).
Proof.
  split; [split; [reflexivity | exact I]|].
  split; [exact (proj1 (NewScraper_link_parts field_more eq_refl) I)|].
  split.
  { apply (proj1 (proj2 (NewScraper_link_parts field_link_string eq_refl))).
    intros []. }
  assert (Forall field_ok [text_field "title" ".title"]) as Hok1.
  { repeat constructor. intros Hr; discriminate Hr. }
  assert (Forall field_ok []) as Hok2 by constructor.
  assert (NewScraper_fields ([text_field "title" ".title"] ++ field_more :: []) [] []
          = Ok (Parts scraper_link, [".title"; "a.more"])) as Hrun by reflexivity.
  split.
  - exact (proj1 (proj2 (proj2 (NewScraper_link_parts field_more eq_refl))) I
             [text_field "title" ".title"] [] Hok1 Hok2).
  - exact (proj2 (proj2 (proj2 (NewScraper_link_parts field_more eq_refl)))
             [text_field "title" ".title"] [] (Parts scraper_link)
             [".title"; "a.more"] Hrun).
Defined.

Lemma NewScraper_link : NewScraper payload_link = Ok scraper_link.
Proof. reflexivity. Qed.

Lemma PartNames_of_NewScraper_witness :
  NewScraper payload_link = Ok scraper_link
  ∧ PartNames scraper_link = Some ["title"; "more_text"; "more_link"].
Proof.
  split; [exact NewScraper_link|].
  apply (PartNames_of_NewScraper payload_link scraper_link NewScraper_link).
Defined.

Lemma NewScraper_Parts_invariant_witness :
  NewScraper payload_link = Ok scraper_link
  ∧ NoDup (elems (PartNames scraper_link))
  ∧ Forall (λ f, Field_Selector f ≠ "") (Fields payload_link).
Proof.
  split; [exact NewScraper_link|].
  destruct (NewScraper_Parts_invariant payload_link scraper_link NewScraper_link)
    as (_ & Hnd & _ & _ & Hsel).
  split; [exact Hnd | exact Hsel].
Defined.

Lemma NewScraper_image_parts_witness :
  Type_ (Field_Extractor field_pic) = "image"
  ∧ params_is_map field_pic
  ∧ NewScraper_field field_pic
    = Ok (image_parts field_pic (mkAttr "src") (mkAttr "alt"), ["img.pic"]).
Proof.
  split_and!; [reflexivity | exact I |].
  exact (NewScraper_image_parts field_pic eq_refl I).
Defined.

Lemma known_type_number : ¬ known_type "number".
Proof.
  intros Hk%known_type_cases.
  destruct Hk as [Hk|[Hk|[Hk|[Hk|[Hk|[Hk|Hk]]]]]]; discriminate Hk.
Defined.

Lemma NewScraper_other_field_witness :
  (NewScraper_field field_number
   = Ok ([mkPart "price" ".price" None None], [".price"])
   ∧ ∃ s, NewScraper payload_number = Ok s
          ∧ Parts s = [mkPart "price" ".price" None None])
  ∧ NewScraper_field field_number_round
    = Panic (PanicMessage "reflect: call of reflect.Value.Elem on zero Value")
  ∧ ∃ e, NewScraper_field (text_field "title" ".title")
         = Ok ([mkPart "title" ".title" (Some e) None], [".title"]).
Proof.
  split; [split | split].
  - apply (proj1 (proj2 (NewScraper_other_field field_number
                           ltac:(discriminate) ltac:(discriminate) I
                           ltac:(discriminate)))).
    exact known_type_number.
  - apply (proj2 (proj2 (NewScraper_other_field field_number
                           ltac:(discriminate) ltac:(discriminate) I
                           ltac:(discriminate))) payload_number eq_refl);
      [exact known_type_number | reflexivity | discriminate | discriminate
      | by eexists ..].
  - apply (proj1 (proj2 (NewScraper_other_field field_number_round
                           ltac:(discriminate) ltac:(discriminate) I
                           ltac:(discriminate)))).
    exact known_type_number.
  - apply (proj1 (NewScraper_other_field (text_field "title" ".title")
                    ltac:(discriminate) ltac:(discriminate) I
                    ltac:(discriminate))).
    apply known_type_cases. tauto.
Defined.

Lemma NewScraper_composite_any_name_witness :
  Field_Name field_noname = ""
  ∧ ∃ s, NewScraper payload_noname = Ok s
         ∧ PartNames s = Some ["_text"; "_link"]
         ∧ length (Parts s) = 2.
Proof.
  split; [reflexivity|].
  apply (NewScraper_composite_any_name payload_noname field_noname eq_refl);
    [by left | exact I | discriminate | by eexists ..].
Defined.

Lemma NewScraper_name_collision_witness :
  Fields payload_collision !! 0 = Some field_more
  ∧ Fields payload_collision !! 1 = Some (text_field "more_text" ".more")
  ∧ "more_text" ∈ field_names field_more
  ∧ "more_text" ∈ field_names (text_field "more_text" ".more")
  ∧ ∃ e, NewScraper payload_collision = Err e.
Proof.
  assert ("more_text" ∈ field_names field_more) as H1 by left.
  assert ("more_text" ∈ field_names (text_field "more_text" ".more")) as H2 by left.
  split_and!; [reflexivity | reflexivity | exact H1 | exact H2 |].
  apply (NewScraper_name_collision payload_collision 0 1 field_more
           (text_field "more_text" ".more") "more_text" eq_refl eq_refl);
    [discriminate | exact H1 | exact H2 |].
  repeat constructor; try (intros Hr; discriminate Hr).
  intros Hl _ _. by destruct Hl.
Defined.

Example NewScraper_collision_error :
  NewScraper payload_collision = Err (ErrDuplicateName 2).
Proof. reflexivity. Qed.

Lemma NewScraper_field_panic_witness :
  NewScraper_field field_params_string
  = Panic (InterfaceConversion (AnyString "trim") "map[string]interface {}")
  ∧ NewScraper_field field_regex_bare
    = Panic (InterfaceConversion AnyNil "string")
  ∧ NewScraper_field (regex_field "price" ".price" "(")
    = Panic (RegexpMustCompile "(").
Proof.
  split_and!.
  - apply (proj1 (NewScraper_field_panic field_params_string)). intros [].
  - apply (proj1 (proj2 (NewScraper_field_panic field_regex_bare)));
      [exact I | reflexivity | reflexivity].
  - apply (proj2 (proj2 (NewScraper_field_panic (regex_field "price" ".price" "("))));
      reflexivity.
Defined.

Lemma NewScraper_first_panic_witness :
  (Fields payload_bad_regex
   = [text_field "title" ".title"] ++ regex_field "price" ".price" "(" :: []
   ∧ NewScraper payload_bad_regex = Panic (RegexpMustCompile "("))
  ∧ (Fields payload_number_round
     = [text_field "title" ".title"] ++ field_number_round :: []
     ∧ NewScraper payload_number_round
       = Panic (PanicMessage "reflect: call of reflect.Value.Elem on zero Value")).
Proof.
  assert (Forall field_ok [text_field "title" ".title"]) as Hok.
  { repeat constructor. intros Hr; discriminate Hr. }
  split; (split; [reflexivity|]).
  - apply (NewScraper_first_panic payload_bad_regex [text_field "title" ".title"] []
             (regex_field "price" ".price" "("));
      [reflexivity | exact Hok | reflexivity].
  - apply (NewScraper_first_panic payload_number_round [text_field "title" ".title"] []
             field_number_round);
      [reflexivity | exact Hok | reflexivity].
Defined.

End Runs_more.
